(** * ChatSphere server: a shallow embedding of [server.py]

    The development follows the server's source: the SQLite-backed
    [Database] class, the authentication handshake [handle_auth], the
    connection entry point [client_handler], the fan-out loops
    [broadcast_user_list] and [broadcast_message], the registry update
    [remove_client] and the reader loop [listen_for_messages].

    Python text is modelled by [string], read as a sequence of code points
    below 256 (text with other characters is outside the model), a socket
    by its descriptor number,
    a parsed JSON document by the inductive type [json].  Everything the
    server does to the outside world is appended to an event log kept in
    the server state, so that statements about "what was sent to whom" are
    statements about that log.  Console diagnostics ([print]) are not part
    of the model. *)

From Stdlib Require Import List Arith Lia Bool ZArith.
From Stdlib Require Import Ascii String.
Import ListNotations.

Local Open Scope string_scope.
Local Open Scope list_scope.
Local Open Scope nat_scope.

Set Warnings "-register-all".

(** ** Text helpers *)

Module Text.

Definition LF : ascii := ascii_of_nat 10.
Definition DQ : ascii := ascii_of_nat 34.
Definition BSL : ascii := ascii_of_nat 92.

Definition newline : string := String LF "".

(** [quoted s] is [s] between double quotes, for writing JSON text. *)
Definition quoted (s : string) : string :=
  (String DQ s ++ String DQ "")%string.

(** The code points below 256 for which [str.isspace()] holds, which are
    the ones [str.strip()] removes: TAB, LF, VT, FF, CR, the separators
    FS GS RS US, the space, NEL (133) and the no-break space (160). *)
Definition py_isspace (c : ascii) : bool :=
  let n := nat_of_ascii c in
  ((9 <=? n) && (n <=? 13)) || ((28 <=? n) && (n <=? 32))
  || (n =? 133) || (n =? 160).

Fixpoint lstrip (s : string) : string :=
  match s with
  | String c r => if py_isspace c then lstrip r else s
  | EmptyString => EmptyString
  end.

Fixpoint rev_onto (s acc : string) : string :=
  match s with
  | String c r => rev_onto r (String c acc)
  | EmptyString => acc
  end.

Definition rev (s : string) : string := rev_onto s "".

Definition strip (s : string) : string := rev (lstrip (rev (lstrip s))).

Definition is_empty (s : string) : bool :=
  match s with EmptyString => true | _ => false end.

(** [split1 s] is Python's [s.split("\n", 1)] when ["\n" in s], and
    [None] when [s] holds no line terminator. *)
Fixpoint split1 (s : string) : option (string * string) :=
  match s with
  | EmptyString => None
  | String c r =>
      if Ascii.eqb c LF then Some ("", r)
      else match split1 r with
           | Some (line, rest) => Some (String c line, rest)
           | None => None
           end
  end.

Definition digit (n : nat) : ascii := ascii_of_nat (48 + n mod 10).

(** A zero-padded two-digit field, as [%H] and [%M] print it. *)
Definition two_digits (n : nat) : string :=
  String (digit (n / 10)) (String (digit n) "").

End Text.

(** ** JSON documents *)

(** What [json.loads] returns.  A Python [dict] is kept as the association
    list of its items in insertion order (keys pairwise distinct); a float
    is kept as its 64-bit pattern, since the server never computes on it. *)
Inductive json : Type :=
| JNull
| JBool (b : bool)
| JInt (n : Z)
| JFloat (bits : Z)
| JStr (s : string)
| JArr (items : list json)
| JObj (items : list (string * json)).

Module Dict.

(** [d.get(k)] on the items of a dict: [None] stands for Python's [None]
    result on a missing key. *)
Fixpoint get (k : string) (items : list (string * json)) : option json :=
  match items with
  | [] => None
  | (k', v) :: rest => if String.eqb k k' then Some v else get k rest
  end.

(** [d[k] = v]: overwrite in place, or append a new item. *)
Fixpoint set (k : string) (v : json) (items : list (string * json))
  : list (string * json) :=
  match items with
  | [] => [(k, v)]
  | (k', v') :: rest =>
      if String.eqb k k' then (k', v) :: rest else (k', v') :: set k v rest
  end.

End Dict.

(** What a call [json.loads(s)] does: it returns a document, or raises
    [JSONDecodeError], or raises something else ([RecursionError] on a
    text nested too deep), which [except json.JSONDecodeError] does not
    catch. *)
Inductive loads_result : Type :=
| Loaded (v : json)
| JSONDecodeError
| LoadsRaises.

(** ** A JSON reader for the examples

    The theorems below are parametric in the JSON reader (the environment
    field [json_loads]).  Closed examples need a concrete one: [Reader.loads]
    reads JSON as [json.loads] does, numbers with a fraction or an exponent
    and the literals [NaN] and [Infinity] included, on text whose strings
    hold, raw or escaped, only code points below 256 (other text is
    outside the model: the reader answers [None] on it).  [None] is a
    decode error.  [Reader.json_loads] is that
    reader as an environment field; it never answers [LoadsRaises]. *)
Module Reader.

Import Text.

Definition is_ws (c : ascii) : bool :=
  let n := nat_of_ascii c in
  (n =? 32) || (n =? 9) || (n =? 10) || (n =? 13).

Fixpoint skip_ws (s : string) : string :=
  match s with
  | String c r => if is_ws c then skip_ws r else s
  | EmptyString => EmptyString
  end.

Fixpoint strip_prefix (p s : string) : option string :=
  match p, s with
  | EmptyString, _ => Some s
  | String a p', String b s' =>
      if Ascii.eqb a b then strip_prefix p' s' else None
  | _, _ => None
  end.

Definition unescape (c : ascii) : option ascii :=
  let n := nat_of_ascii c in
  if n =? 34 then Some DQ
  else if n =? 92 then Some BSL
  else if n =? 47 then Some c
  else if n =? 110 then Some LF
  else if n =? 116 then Some (ascii_of_nat 9)
  else if n =? 114 then Some (ascii_of_nat 13)
  else if n =? 98 then Some (ascii_of_nat 8)
  else if n =? 102 then Some (ascii_of_nat 12)
  else None.

Definition hex_digit (c : ascii) : option nat :=
  let n := nat_of_ascii c in
  if (48 <=? n) && (n <=? 57) then Some (n - 48)
  else if (65 <=? n) && (n <=? 70) then Some (n - 55)
  else if (97 <=? n) && (n <=? 102) then Some (n - 87)
  else None.

(** The code point of a [\uXXXX] escape, when it is one of the model's
    characters (below 256). *)
Definition hex4 (a b c d : ascii) : option ascii :=
  match hex_digit a, hex_digit b, hex_digit c, hex_digit d with
  | Some x, Some y, Some z, Some w =>
      let n := ((x * 16 + y) * 16 + z) * 16 + w in
      if n <? 256 then Some (ascii_of_nat n) else None
  | _, _, _, _ => None
  end.

(** The characters of a string literal after its opening quote. *)
Fixpoint read_chars (s acc : string) : option (string * string) :=
  match s with
  | EmptyString => None
  | String c r =>
      if Ascii.eqb c DQ then Some (rev acc, r)
      else if Ascii.eqb c BSL then
        match r with
        | String e r' =>
            if nat_of_ascii e =? 117 then
              match r' with
              | String h1 (String h2 (String h3 (String h4 r''))) =>
                  match hex4 h1 h2 h3 h4 with
                  | Some x => read_chars r'' (String x acc)
                  | None => None
                  end
              | _ => None
              end
            else
              match unescape e with
              | Some x => read_chars r' (String x acc)
              | None => None
              end
        | EmptyString => None
        end
      else if nat_of_ascii c <? 32 then None
      else read_chars r (String c acc)
  end.

Definition is_digit (c : ascii) : bool :=
  let n := nat_of_ascii c in (48 <=? n) && (n <=? 57).

Fixpoint read_digits (s : string) (acc : N) (seen : nat)
  : N * nat * string :=
  match s with
  | String c r =>
      if is_digit c
      then read_digits r (10 * acc + N.of_nat (nat_of_ascii c - 48))%N
                       (S seen)
      else (acc, seen, s)
  | EmptyString => (acc, seen, s)
  end.

Definition leading_zero (s : string) : bool :=
  match s with
  | String c (String d _) => (nat_of_ascii c =? 48) && is_digit d
  | _ => false
  end.

(** [a / b] rounded to the nearest integer, ties to even. *)
Definition round_half_even (a b : Z) : Z :=
  let q := (a / b)%Z in
  let r := (a mod b)%Z in
  if ((2 * r >? b) || ((2 * r =? b) && Z.odd q))%Z then (q + 1)%Z else q.

(** The bits of the double nearest to [m * 10 ^ e10] (ties to even), with
    the sign bit set when [neg]: what [float] gives on a decimal
    literal. *)
Definition double_bits (neg : bool) (m e10 : Z) : Z :=
  let sign := (if neg then 2 ^ 63 else 0)%Z in
  let inf := (2047 * 2 ^ 52)%Z in
  if (m =? 0)%Z then sign
  else if (e10 >? 310)%Z then (sign + inf)%Z
  else if (e10 + Z.log2 m / 3 + 1 <? -330)%Z then sign
  else
    let num := (if 0 <=? e10 then m * 10 ^ e10 else m)%Z in
    let den := (if 0 <=? e10 then 1 else 10 ^ (- e10))%Z in
    let k := (Z.log2 num - Z.log2 den)%Z in
    let above := (if 0 <=? k then den * 2 ^ k <=? num
                  else den <=? num * 2 ^ (- k))%Z in
    let e := Z.max (if above then k else k - 1) (-1022) in
    let sh := (e - 52)%Z in
    let q := (if 0 <=? sh then round_half_even num (den * 2 ^ sh)
              else round_half_even (num * 2 ^ (- sh)) den)%Z in
    let e := (if q =? 2 ^ 53 then e + 1 else e)%Z in
    let q := (if q =? 2 ^ 53 then 2 ^ 52 else q)%Z in
    if (e >? 1023)%Z then (sign + inf)%Z
    else if (q <? 2 ^ 52)%Z then (sign + q)%Z
    else (sign + (e + 1023) * 2 ^ 52 + (q - 2 ^ 52))%Z.

(** A number, as the scanner of [json] reads it: an integer part, then a
    fraction and an exponent when they are complete; an integer when there
    is neither, a float otherwise. *)
Definition read_number (s : string) : option (json * string) :=
  let '(neg, body) :=
    match s with
    | String c r => if nat_of_ascii c =? 45 then (true, r) else (false, s)
    | EmptyString => (false, s)
    end in
  if leading_zero body then None
  else
    let '(n, seen, rest) := read_digits body 0%N 0 in
    if seen =? 0 then None
    else
      let '(m, frac, rest1) :=
        match rest with
        | String c r =>
            if nat_of_ascii c =? 46 then
              let '(m, k, r') := read_digits r n 0 in
              if k =? 0 then (n, 0, rest) else (m, k, r')
            else (n, 0, rest)
        | EmptyString => (n, 0, rest)
        end in
      let '(expo, rest2) :=
        match rest1 with
        | String c r =>
            let x := nat_of_ascii c in
            if (x =? 101) || (x =? 69) then
              let '(minus, r1) :=
                match r with
                | String sg r0 =>
                    if nat_of_ascii sg =? 45 then (true, r0)
                    else if nat_of_ascii sg =? 43 then (false, r0)
                    else (false, r)
                | EmptyString => (false, r)
                end in
              let '(ev, k, r') := read_digits r1 0%N 0 in
              if k =? 0 then (None, rest1)
              else (Some (if minus then Z.opp (Z.of_N ev) else Z.of_N ev), r')
            else (None, rest1)
        | EmptyString => (None, rest1)
        end in
      match frac, expo with
      | 0, None =>
          Some (JInt (if neg then Z.opp (Z.of_N n) else Z.of_N n), rest2)
      | _, _ =>
          let e10 := (match expo with Some e => e | None => 0 end
                      - Z.of_nat frac)%Z in
          Some (JFloat (double_bits neg (Z.of_N m) e10), rest2)
      end.

Fixpoint read_value (fuel : nat) (s : string) : option (json * string) :=
  match fuel with
  | 0 => None
  | S f =>
      match skip_ws s with
      | EmptyString => None
      | String c r =>
          let n := nat_of_ascii c in
          if n =? 34 then
            match read_chars r "" with
            | Some (str, rest) => Some (JStr str, rest)
            | None => None
            end
          else if n =? 91 then
            match skip_ws r with
            | String c' r' =>
                if nat_of_ascii c' =? 93 then Some (JArr [], r')
                else read_items f r []
            | EmptyString => None
            end
          else if n =? 123 then
            match skip_ws r with
            | String c' r' =>
                if nat_of_ascii c' =? 125 then Some (JObj [], r')
                else read_members f r []
            | EmptyString => None
            end
          else if n =? 110 then
            option_map (pair JNull) (strip_prefix "null" (String c r))
          else if n =? 116 then
            option_map (pair (JBool true)) (strip_prefix "true" (String c r))
          else if n =? 102 then
            option_map (pair (JBool false))
                       (strip_prefix "false" (String c r))
          else if n =? 78 then
            option_map (pair (JFloat (2047 * 2 ^ 52 + 2 ^ 51)))
                       (strip_prefix "NaN" (String c r))
          else if n =? 73 then
            option_map (pair (JFloat (2047 * 2 ^ 52)))
                       (strip_prefix "Infinity" (String c r))
          else
            match strip_prefix "-Infinity" (String c r) with
            | Some rest => Some (JFloat (2 ^ 63 + 2047 * 2 ^ 52), rest)
            | None => read_number (String c r)
            end
      end
  end

with read_items (fuel : nat) (s : string) (acc : list json)
  : option (json * string) :=
  match fuel with
  | 0 => None
  | S f =>
      match read_value f s with
      | Some (v, rest) =>
          match skip_ws rest with
          | String c r =>
              let n := nat_of_ascii c in
              if n =? 44 then read_items f r (acc ++ [v])
              else if n =? 93 then Some (JArr (acc ++ [v]), r)
              else None
          | EmptyString => None
          end
      | None => None
      end
  end

with read_members (fuel : nat) (s : string) (acc : list (string * json))
  : option (json * string) :=
  match fuel with
  | 0 => None
  | S f =>
      match skip_ws s with
      | String q r =>
          if Ascii.eqb q DQ then
            match read_chars r "" with
            | Some (key, rest) =>
                match skip_ws rest with
                | String colon rest' =>
                    if nat_of_ascii colon =? 58 then
                      match read_value f rest' with
                      | Some (v, rest'') =>
                          match skip_ws rest'' with
                          | String c r' =>
                              let n := nat_of_ascii c in
                              if n =? 44
                              then read_members f r' (Dict.set key v acc)
                              else if n =? 125
                              then Some (JObj (Dict.set key v acc), r')
                              else None
                          | EmptyString => None
                          end
                      | None => None
                      end
                    else None
                | EmptyString => None
                end
            | None => None
            end
          else None
      | EmptyString => None
      end
  end.

Definition loads (s : string) : option json :=
  match read_value (2 * String.length s + 2) s with
  | Some (v, rest) =>
      match skip_ws rest with
      | EmptyString => Some v
      | _ => None
      end
  | None => None
  end.

Definition json_loads (s : string) : loads_result :=
  match loads s with
  | Some v => Loaded v
  | None => JSONDecodeError
  end.

End Reader.

(** ** Server state, events and the environment *)

Definition socket := nat.

(** What the server does that is visible from outside, in order of
    occurrence.  [Send sock payload ok] is one call
    [sock.sendall((json.dumps(payload) + "\n").encode())], with [ok = false]
    when the call raised.  [Close] is [sock.close()].  The last two mark
    the entry into [remove_client] and [broadcast_user_list]. *)
Inductive event : Type :=
| Send (sock : socket) (payload : json) (ok : bool)
| Close (sock : socket)
| RemoveClient (username : string)
| UserListCast (users : list string).

(** [users] is the table of the SQLite file (one row per account, in
    insertion order, [username] unique); [active_clients] is the field of
    the same name, a list of [(username, socket)]. *)
Record state : Type := mkState {
  users : list (string * string);
  active_clients : list (string * socket);
  log : list event
}.

Record datetime : Type := mkTime { hour : nat; minute : nat }.

(** [strftime("%H:%M")]. *)
Definition strftime_HM (d : datetime) : string :=
  (Text.two_digits (hour d) ++ ":" ++ Text.two_digits (minute d))%string.

(** What the server cannot decide by itself: the JSON reader [json.loads],
    and, each as a function of the events so far, whether a [sendall] on a
    socket raises, and the wall clock. *)
Record environment : Type := mkEnv {
  json_loads : string -> loads_result;
  sendall_raises : list event -> socket -> bool;
  datetime_now : list event -> datetime
}.

(** The result of [sock.recv(2048).decode()]: the text read (empty at end
    of stream), or an exception. *)
Inductive recv_result : Type :=
| Recv (data : string)
| RecvRaises.

(** ** Computations

    A computation runs from a state and either returns a value with the
    new state, or raises a Python exception (the state at the raise is
    kept: the log and the registry survive the exception), or is [Stuck]:
    the recursion budget ran out, or a value left the modelled fragment. *)
Inductive outcome (A : Type) : Type :=
| Done (a : A) (st : state)
| Raised (st : state)
| Stuck.

Arguments Done {A} a st.
Arguments Raised {A} st.
Arguments Stuck {A}.

Definition M (A : Type) : Type := state -> outcome A.

Definition ret {A} (a : A) : M A := fun st => Done a st.

Definition bind {A B} (m : M A) (k : A -> M B) : M B :=
  fun st =>
    match m st with
    | Done a st' => k a st'
    | Raised st' => Raised st'
    | Stuck => Stuck
    end.

Definition raise {A} : M A := fun st => Raised st.

Definition stuck {A} : M A := fun _ => Stuck.

(** [try: body except: handler] with a bare [except]. *)
Definition try_except {A} (body handler : M A) : M A :=
  fun st =>
    match body st with
    | Raised st' => handler st'
    | r => r
    end.

Definition get_state : M state := fun st => Done st st.

Definition emit (e : event) : M unit :=
  fun st => Done tt (mkState (users st) (active_clients st) (log st ++ [e])).

Definition set_active_clients (l : list (string * socket)) : M unit :=
  fun st => Done tt (mkState (users st) l (log st)).

Definition set_users (l : list (string * string)) : M unit :=
  fun st => Done tt (mkState l (active_clients st) (log st)).

Declare Scope comp_scope.
Delimit Scope comp_scope with comp.
Notation "x <- m ;; k" := (bind m (fun x => k))
  (at level 61, m at next level, right associativity) : comp_scope.
Notation "m ;; k" := (bind m (fun _ => k))
  (at level 61, right associativity) : comp_scope.
Local Open Scope comp_scope.

(** [for x in l: body x]. *)
Fixpoint for_each {A} (l : list A) (body : A -> M unit) : M unit :=
  match l with
  | [] => ret tt
  | x :: rest => body x ;; for_each rest body
  end.

(** The events a run added to the log. *)
Definition events_since (st st' : state) : list event :=
  skipn (List.length (log st)) (log st').

(** ** The [Database] class *)

Module Database.

(** A Python value bound to a [?] placeholder: [None] becomes SQL NULL
    and a [str] becomes TEXT.  Other values (numbers, booleans, lists,
    dicts) are outside the model: [bind_param] has no answer for them and
    the computation is [Stuck].  The theorems that need an answer say so,
    by asking for text, [null] or missing credentials. *)
Inductive sqlval : Type :=
| SqlNull
| SqlText (s : string).

Definition bind_param (v : option json) : option sqlval :=
  match v with
  | None | Some JNull => Some SqlNull
  | Some (JStr s) => Some (SqlText s)
  | Some _ => None
  end.

Definition has_username (u : string) (rows : list (string * string)) : bool :=
  existsb (fun row => String.eqb (fst row) u) rows.

Definition default_users : list (string * string) :=
  [("yosif", "1010"); ("mohamed", "1010")].

(** [INSERT OR IGNORE] of each default account. *)
Definition add_default_users (rows : list (string * string))
  : list (string * string) :=
  fold_left
    (fun acc row => if has_username (fst row) acc then acc else acc ++ [row])
    default_users rows.

(** [Database()] opened on a file that holds [rows]. *)
Definition init (rows : list (string * string)) : list (string * string) :=
  add_default_users rows.

(** [register_user]: the [INSERT] violates [UNIQUE] when the username is
    taken and [NOT NULL] when a value is NULL; both raise
    [IntegrityError], which the method turns into [False]. *)
Definition register_user (username password : option json) : M bool :=
  match bind_param username, bind_param password with
  | Some (SqlText u), Some (SqlText p) =>
      st <- get_state ;;
      if has_username u (users st) then ret false
      else set_users (users st ++ [(u, p)]) ;; ret true
  | Some _, Some _ => ret false
  | _, _ => stuck
  end.

(** [validate_user]: is there a row with this username and password.  A
    comparison with NULL selects no row. *)
Definition validate_user (username password : option json) : M bool :=
  match bind_param username, bind_param password with
  | Some (SqlText u), Some (SqlText p) =>
      st <- get_state ;;
      ret (existsb (fun row => String.eqb (fst row) u && String.eqb (snd row) p)
                   (users st))
  | Some _, Some _ => ret false
  | _, _ => stuck
  end.

End Database.

(** ** The [ChatServer] class *)

(** The records the server sends. *)
Definition status_success : json := JObj [("status", JStr "success")].

Definition status_error (message : string) : json :=
  JObj [("status", JStr "error"); ("message", JStr message)].

Definition user_list_record (usernames : list string) : json :=
  JObj [("type", JStr "user_list"); ("content", JArr (map JStr usernames))].

Definition message_record (sender : string) (content : json) (time : string)
  : json :=
  JObj [("type", JStr "message"); ("sender", JStr sender);
        ("content", content); ("time", JStr time)].

(** The list comprehension of [remove_client]. *)
Definition without (username : string) (l : list (string * socket))
  : list (string * socket) :=
  filter (fun entry => negb (String.eqb (fst entry) username)) l.

(** [v == "literal"] for a value [v] that [dict.get] returned. *)
Definition str_eq (v : option json) (literal : string) : bool :=
  match v with
  | Some (JStr s) => String.eqb s literal
  | _ => false
  end.

(** Where the reader thread stands once the reads given to it are used up:
    waiting in [recv] with some text buffered, or out of its loop. *)
Inductive reader : Type :=
| Reading (buffer : string)
| Finished.

(** [ChatServer.__init__], up to the accept loop. *)
Definition initial_state (rows : list (string * string)) : state :=
  mkState (Database.init rows) [] [].

Section Server.

Variable env : environment.

Definition sendall (sock : socket) (payload : json) : M unit :=
  fun st =>
    let ok := negb (sendall_raises env (log st) sock) in
    let st' := mkState (users st) (active_clients st)
                       (log st ++ [Send sock payload ok]) in
    if ok then Done tt st' else Raised st'.

(** [remove_client], with the presence broadcast it ends in as a
    parameter. *)
Definition remove_client_with (cast : M unit) (username : string) : M unit :=
  emit (RemoveClient username) ;;
  st <- get_state ;;
  set_active_clients (without username (active_clients st)) ;;
  cast.

(** [broadcast_user_list] and [remove_client] call each other; [fuel]
    bounds the depth of that recursion. *)
Fixpoint broadcast_user_list_rec (fuel : nat) : M unit :=
  match fuel with
  | 0 => stuck
  | S f =>
      st <- get_state ;;
      let usernames := map fst (active_clients st) in
      emit (UserListCast usernames) ;;
      for_each (active_clients st)
        (fun entry =>
           try_except
             (sendall (snd entry) (user_list_record usernames))
             (remove_client_with (broadcast_user_list_rec f) (fst entry)))
  end.

Definition broadcast_user_list : M unit :=
  fun st => broadcast_user_list_rec (S (List.length (active_clients st))) st.

Definition remove_client (username : string) : M unit :=
  remove_client_with broadcast_user_list username.

Definition broadcast_message (message : json) : M unit :=
  st <- get_state ;;
  for_each (active_clients st)
    (fun entry =>
       try_except (sendall (snd entry) message)
                  (remove_client (fst entry))).

(** [handle_auth]; [first_read] is what [sock.recv(2048).decode()]
    gives.  The result is the method's return value: [Some u] for the
    string [u], [None] for [None]. *)
Definition handle_auth (sock : socket) (first_read : recv_result)
  : M (option string) :=
  match first_read with
  | RecvRaises => raise
  | Recv raw =>
      if Text.is_empty raw then ret None
      else
        match json_loads env (Text.strip raw) with
        | LoadsRaises => raise
        | JSONDecodeError =>
            sendall sock (status_error "Invalid JSON") ;; ret None
        | Loaded (JObj creds) =>
            let action := Dict.get "action" creds in
            let user := Dict.get "username" creds in
            let pwd := Dict.get "password" creds in
            if str_eq action "register" then
              ok <- Database.register_user user pwd ;;
              sendall sock (if ok then status_success
                            else status_error "Username already exists") ;;
              ret None
            else if str_eq action "login" then
              ok <- Database.validate_user user pwd ;;
              if ok then
                sendall sock status_success ;;
                match user with
                | Some (JStr u) => ret (Some u)
                | _ => stuck
                end
              else
                sendall sock (status_error "Invalid credentials") ;;
                ret None
            else
              sendall sock (status_error "Unknown action") ;; ret None
        | Loaded _ => raise
        end
  end.

(** [client_handler], up to the start of the reader thread. *)
Definition client_handler (client_sock : socket) (first_read : recv_result)
  : M unit :=
  username <- handle_auth client_sock first_read ;;
  match username with
  | None => emit (Close client_sock)
  | Some u =>
      if Text.is_empty u then emit (Close client_sock)
      else
        st <- get_state ;;
        set_active_clients (active_clients st ++ [(u, client_sock)]) ;;
        broadcast_user_list
  end.

(** The body of the inner [while] of [listen_for_messages], for one
    [line] split off the buffer.  [pkt.get] raises on a document that is
    not a dict, and [pkt["content"]] on a missing key; what [json.loads]
    raises other than [JSONDecodeError] is not caught here either. *)
Definition process_line (username line : string) : M unit :=
  if Text.is_empty (Text.strip line) then ret tt
  else
    match json_loads env line with
    | LoadsRaises => raise
    | JSONDecodeError => ret tt
    | Loaded (JObj pkt) =>
        if str_eq (Dict.get "type" pkt) "message" then
          match Dict.get "content" pkt with
          | Some content =>
              st <- get_state ;;
              let time := strftime_HM (datetime_now env (log st)) in
              broadcast_message (message_record username content time)
          | None => raise
          end
        else ret tt
    | Loaded _ => raise
    end.

(** [while "\n" in buffer: ...]; returns the buffer left over. *)
Fixpoint drain_rec (fuel : nat) (username buffer : string) : M string :=
  match fuel with
  | 0 => stuck
  | S f =>
      match Text.split1 buffer with
      | None => ret buffer
      | Some (line, rest) =>
          process_line username line ;; drain_rec f username rest
      end
  end.

Definition drain (username buffer : string) : M string :=
  drain_rec (S (String.length buffer)) username buffer.

Fixpoint listen_loop (username : string) (reads : list recv_result)
         (buffer : string) : M reader :=
  match reads with
  | [] => ret (Reading buffer)
  | r :: rest =>
      next <- try_except
               (match r with
                | RecvRaises => raise
                | Recv data =>
                    if Text.is_empty data then raise
                    else
                      b <- drain username (buffer ++ data)%string ;;
                      ret (Reading b)
                end)
               (remove_client username ;; ret Finished) ;;
      match next with
      | Reading b => listen_loop username rest b
      | Finished => ret Finished
      end
  end.

(** [listen_for_messages(sock, username)], where [reads] are the results
    of the successive [sock.recv] calls. *)
Definition listen_for_messages (sock : socket) (username : string)
           (reads : list recv_result) : M reader :=
  listen_loop username reads "".

End Server.

(** ** Reading the event log *)

Definition usernames_of (reg : list (string * socket)) : list string :=
  map fst reg.

(** The shape of the events one fan-out loop adds.  [fan_trace p snap reg
    evs reg'] reads: looping over the snapshot [snap] with payload [p],
    from the registry [reg], adds the events [evs] and leaves the registry
    [reg'].  A send that succeeds adds one event.  A send that raises is
    followed by the removal of that entry's username, by the presence
    broadcast over the registry so reduced (a fan-out of its own), and
    only then by the rest of the loop. *)
Inductive fan_trace (p : json)
  : list (string * socket) -> list (string * socket) -> list event ->
    list (string * socket) -> Prop :=
| fan_done : forall reg, fan_trace p [] reg [] reg
| fan_sent : forall u s rest reg evs reg',
    fan_trace p rest reg evs reg' ->
    fan_trace p ((u, s) :: rest) reg (Send s p true :: evs) reg'
| fan_failed : forall u s rest reg evs1 reg1 evs2 reg',
    fan_trace (user_list_record (usernames_of (without u reg)))
              (without u reg) (without u reg) evs1 reg1 ->
    fan_trace p rest reg1 evs2 reg' ->
    fan_trace p ((u, s) :: rest) reg
              (Send s p false :: RemoveClient u
                 :: UserListCast (usernames_of (without u reg))
                 :: evs1 ++ evs2)
              reg'.

(** The events of one presence broadcast from the registry [reg]. *)
Definition cast_trace (reg : list (string * socket)) (evs : list event)
           (reg' : list (string * socket)) : Prop :=
  exists evs0,
    evs = UserListCast (usernames_of reg) :: evs0 /\
    fan_trace (user_list_record (usernames_of reg)) reg reg evs0 reg'.

(** The usernames [remove_client] was called with. *)
Fixpoint removed (evs : list event) : list string :=
  match evs with
  | RemoveClient u :: rest => u :: removed rest
  | _ :: rest => removed rest
  | [] => []
  end.

Fixpoint failed_sends (evs : list event) : nat :=
  match evs with
  | Send _ _ false :: rest => S (failed_sends rest)
  | _ :: rest => failed_sends rest
  | [] => 0
  end.

Fixpoint presence_casts (evs : list event) : nat :=
  match evs with
  | UserListCast _ :: rest => S (presence_casts rest)
  | _ :: rest => presence_casts rest
  | [] => 0
  end.

Fixpoint removals (evs : list event) : nat :=
  match evs with
  | RemoveClient _ :: rest => S (removals rest)
  | _ :: rest => removals rest
  | [] => 0
  end.

(** Is the record a chat message, that is a dict whose ["type"] is
    ["message"]. *)
Definition is_chat (p : json) : bool :=
  match p with
  | JObj items => str_eq (Dict.get "type" items) "message"
  | _ => false
  end.

(** The chat records put on the wire, with the socket each went to,
    whether the write succeeded or not. *)
Fixpoint chat_deliveries (evs : list event) : list (socket * json) :=
  match evs with
  | Send s p _ :: rest =>
      if is_chat p then (s, p) :: chat_deliveries rest
      else chat_deliveries rest
  | _ :: rest => chat_deliveries rest
  | [] => []
  end.

(** Every send that raised is followed at once by the removal of a
    username that keyed that socket in [reg], and then by a presence
    broadcast. *)
Fixpoint failures_handled (reg : list (string * socket)) (evs : list event)
  : Prop :=
  match evs with
  | Send s _ false :: rest =>
      match rest with
      | RemoveClient u :: UserListCast _ :: _ => In (u, s) reg
      | _ => False
      end /\ failures_handled reg rest
  | _ :: rest => failures_handled reg rest
  | [] => True
  end.

Definition mem (u : string) (l : list string) : bool :=
  existsb (String.eqb u) l.

(** [reg] without the entries keyed by a username of [gone]. *)
Definition purge (gone : list string) (reg : list (string * socket))
  : list (string * socket) :=
  filter (fun entry => negb (mem (fst entry) gone)) reg.

Definition never_raises (env : environment) : Prop :=
  forall l s, sendall_raises env l s = false.

(** A trace without a failed send: the environment of a calm network. *)
Definition calm : environment :=
  mkEnv Reader.json_loads (fun _ _ => false) (fun _ => mkTime 9 5).

(** A network on which every write to socket 2 raises. *)
Definition socket2_down : environment :=
  mkEnv Reader.json_loads (fun _ s => s =? 2) (fun _ => mkTime 23 59).

(** What it means for a computation [m] to be a presence broadcast at
    [st]: it returns, touches neither the accounts nor the past of the
    log, and its events have the shape [cast_trace]. *)
Definition casts_at (m : M unit) (st : state) : Prop :=
  exists evs reg',
    m st = Done tt (mkState (users st) reg' (log st ++ evs)) /\
    cast_trace (active_clients st) evs reg'.

Definition fans_at (m : M unit) (p : json) (snap : list (string * socket))
           (st : state) : Prop :=
  exists evs reg',
    m st = Done tt (mkState (users st) reg' (log st ++ evs)) /\
    fan_trace p snap (active_clients st) evs reg'.

(** Best-effort delivery of the payload [p] over the snapshot [snap], read
    off the events [evs] of the fan-out: every entry of the snapshot got a
    write of [p]; every write that raised is followed at once by the
    removal of that entry's username and a presence broadcast; and there
    are as many removals, and as many presence broadcasts, as writes that
    raised. *)
Definition best_effort (p : json) (snap : list (string * socket))
           (evs : list event) : Prop :=
  (forall u s, In (u, s) snap -> exists ok, In (Send s p ok) evs) /\
  failures_handled snap evs /\
  removals evs = failed_sends evs /\
  presence_casts evs = failed_sends evs.

Ltac run :=
  unfold bind, ret, emit, get_state, set_active_clients, set_users,
    try_except, raise; simpl.

(** ** Sample sessions *)

(** A registry with one session, and one with four, two of them under the
    same name. *)
Definition one_client : state :=
  mkState Database.default_users [("yosif", 1)] [].

Definition four_clients : state :=
  mkState Database.default_users
          [("yosif", 1); ("mohamed", 2); ("yosif", 3); ("ali", 4)] [].

(** JSON text as the client writes it:
    [json.dumps({"type": "message", "content": text})]. *)
Definition chat_line (text : string) : string :=
  ("{" ++ Text.quoted "type" ++ ": " ++ Text.quoted "message" ++ ", "
       ++ Text.quoted "content" ++ ": " ++ Text.quoted text ++ "}")%string.

Definition two_clients : state :=
  mkState Database.default_users [("yosif", 1); ("mohamed", 2)] [].

(** JSON text as the client writes it:
    [json.dumps({"action": ..., "username": ..., "password": ...}) + "\n"]. *)
Definition credentials_line (action username password : string) : string :=
  ("{" ++ Text.quoted "action" ++ ": " ++ Text.quoted action ++ ", "
       ++ Text.quoted "username" ++ ": " ++ Text.quoted username ++ ", "
       ++ Text.quoted "password" ++ ": " ++ Text.quoted password ++ "}"
       ++ Text.newline)%string.

Definition valid_pair (u p : string) (rows : list (string * string)) : bool :=
  existsb (fun row => String.eqb (fst row) u && String.eqb (snd row) p) rows.

Definition register_alice : list (string * json) :=
  [("action", JStr "register"); ("username", JStr "alice");
   ("password", JStr "pw1")].

Definition login_yosif : list (string * json) :=
  [("action", JStr "login"); ("username", JStr "yosif");
   ("password", JStr "1010")].

(** Case analysis on the innermost scrutinee of the goal. *)
Ltac break_match :=
  match goal with
  | |- context [match ?x with _ => _ end] =>
      lazymatch x with
      | context [match _ with _ => _ end] => fail
      | _ => destruct x; simpl
      end
  end.

(** Every presence broadcast that follows a removal lists exactly the
    usernames still registered at that moment, that is the entries of the
    registry [reg] at the start less those of every username removed so
    far, and is written to the sink of each of these entries. *)
Definition cascades_delivered (reg : list (string * socket))
           (evs : list event) : Prop :=
  forall before u names after,
    evs = before ++ RemoveClient u :: UserListCast names :: after ->
    names = usernames_of (purge (removed before ++ [u]) reg) /\
    forall v t,
      In (v, t) (purge (removed before ++ [u]) reg) ->
      exists ok, In (Send t (user_list_record names) ok) after.

(** A username is removed only after a write to a socket that it keyed in
    [reg] has raised. *)
Definition removed_for_failure (reg : list (string * socket))
           (evs : list event) : Prop :=
  forall u, In u (removed evs) ->
            exists s q, In (u, s) reg /\ In (Send s q false) evs.

(** ** Observers for the further properties *)

(** The value is text, [null] or missing: what the handshake of the client
    program sends, and what the model of the database binds. *)
Definition text_or_null (v : option json) : bool :=
  match v with
  | None | Some JNull | Some (JStr _) => true
  | Some _ => false
  end.

(** A first read whose username and password, when it parses to a dict,
    are text, [null] or missing. *)
Definition plain_handshake (env : environment) (first_read : recv_result)
  : Prop :=
  forall raw creds,
    first_read = Recv raw ->
    json_loads env (Text.strip raw) = Loaded (JObj creds) ->
    text_or_null (Dict.get "username" creds) = true /\
    text_or_null (Dict.get "password" creds) = true.

(** The state a computation leaves behind, whether it returned or raised:
    an exception ends a thread, not the server. *)
Definition final_state {A} (o : outcome A) : option state :=
  match o with
  | Done _ st | Raised st => Some st
  | Stuck => None
  end.

(** The [UNIQUE] constraint on the column [username]. *)
Definition usernames_unique (rows : list (string * string)) : Prop :=
  NoDup (map fst rows).

Definition is_close (e : event) : bool :=
  match e with
  | Close _ => true
  | _ => false
  end.

(** The chat record [p] carries [username] as its sender. *)
Definition sent_by (username : string) (p : json) : Prop :=
  exists content time, p = message_record username content time.

(** What the reader of the session [username] may do to the registry and
    to the log: entries leave the registry only through the removal of
    their username, no socket is closed, and every chat record on the wire
    has [username] as its sender. *)
Definition relayed (username : string) (reg : list (string * socket))
           (evs : list event) (reg' : list (string * socket)) : Prop :=
  reg' = purge (removed evs) reg /\
  existsb is_close evs = false /\
  Forall (fun d => sent_by username (snd d)) (chat_deliveries evs).

(** A computation of the reader at [st]: it returns or raises, and what it
    did in between is [relayed]. *)
Definition relays (username : string) {A} (m : M A) (st : state) : Prop :=
  exists evs reg',
    ((exists a, m st = Done a (mkState (users st) reg' (log st ++ evs))) \/
     m st = Raised (mkState (users st) reg' (log st ++ evs))) /\
    relayed username (active_clients st) evs reg'.

(** Every session of the registry runs under a non-empty username that
    has an account. *)
Definition registry_sound (st : state) : Prop :=
  forall u s,
    In (u, s) (active_clients st) ->
    Text.is_empty u = false /\ Database.has_username u (users st) = true.

Definition alice_registered : state :=
  mkState (Database.default_users ++ [("alice", "pw1")]) [] [].

(** What the threads of the server do, one thread body at a time: the
    handler of a new connection, or the reader of a session fed with some
    reads.  [serve] runs a sequence of them, each to its end, from a
    state; a thread that raises ends there and the server goes on. *)
Inductive operation : Type :=
| Handle (sock : socket) (first_read : recv_result)
| Listen (sock : socket) (username : string) (reads : list recv_result).

Definition plain_operation (env : environment) (op : operation) : Prop :=
  match op with
  | Handle _ first_read => plain_handshake env first_read
  | Listen _ _ _ => True
  end.

Definition perform (env : environment) (op : operation) (st : state)
  : option state :=
  match op with
  | Handle sock first_read =>
      final_state (client_handler env sock first_read st)
  | Listen sock username reads =>
      final_state (listen_for_messages env sock username reads st)
  end.

Fixpoint serve (env : environment) (ops : list operation) (st : state)
  : option state :=
  match ops with
  | [] => Some st
  | op :: rest =>
      match perform env op st with
      | Some st' => serve env rest st'
      | None => None
      end
  end.

(** A register, two logins, a chat line and a disconnection. *)
Definition sample_run : list operation :=
  [Handle 1 (Recv (credentials_line "register" "alice" "pw1"));
   Handle 2 (Recv (credentials_line "login" "alice" "pw1"));
   Handle 3 (Recv (credentials_line "login" "yosif" "1010"));
   Listen 2 "alice" [Recv (chat_line "hi" ++ Text.newline)];
   Listen 3 "yosif" [Recv ""]].

(** A network on which every write to socket 3 raises. *)
Definition socket3_down : environment :=
  mkEnv Reader.json_loads (fun _ s => s =? 3) (fun _ => mkTime 12 0).

(** [chat_line text] without its opening brace. *)
Definition chat_line_tail (text : string) : string :=
  (Text.quoted "type" ++ ": " ++ Text.quoted "message" ++ ", "
     ++ Text.quoted "content" ++ ": " ++ Text.quoted text ++ "}")%string.

(** A register handshake that carries no password. *)
Definition register_without_password : string :=
  ("{" ++ Text.quoted "action" ++ ": " ++ Text.quoted "register" ++ ", "
       ++ Text.quoted "username" ++ ": " ++ Text.quoted "carol" ++ "}")%string.

(** Case analysis as [break_match], keeping the equation of each case. *)
Ltac break_match_eq :=
  match goal with
  | |- context [match ?x with _ => _ end] =>
      lazymatch x with
      | context [match _ with _ => _ end] => fail
      | _ => destruct x eqn:?; simpl
      end
  end.

(** ** Facts about lists and registries *)

Lemma without_length (u : string) (reg : list (string * socket)) :
  List.length (without u reg) <= List.length reg.
Proof. apply filter_length_le. Qed.

Lemma without_length_lt (u : string) (reg : list (string * socket)) :
  In u (usernames_of reg) ->
  List.length (without u reg) < List.length reg.
Proof.
  induction reg as [|[v s] reg IH]; simpl; [tauto|].
  intros [Hv | Hin].
  - subst v. rewrite String.eqb_refl. simpl.
    pose proof (without_length u reg). lia.
  - specialize (IH Hin). destruct (String.eqb v u); simpl; lia.
Qed.

Lemma without_no_key (u : string) (reg : list (string * socket)) (s : socket) :
  ~ In (u, s) (without u reg).
Proof.
  unfold without. intros H. apply filter_In in H. destruct H as [_ H].
  simpl in H. rewrite String.eqb_refl in H. discriminate.
Qed.

Lemma without_absent (u : string) (reg : list (string * socket)) :
  ~ In u (usernames_of reg) -> without u reg = reg.
Proof.
  induction reg as [|[v s] reg IH]; simpl; intros H; [reflexivity|].
  destruct (String.eqb v u) eqn:E.
  - apply String.eqb_eq in E. subst. tauto.
  - simpl. f_equal. apply IH. tauto.
Qed.

Lemma without_incl (u : string) (reg : list (string * socket)) :
  incl (without u reg) reg.
Proof. intros e H. apply filter_In in H. tauto. Qed.

Lemma purge_nil (reg : list (string * socket)) : purge [] reg = reg.
Proof.
  unfold purge. induction reg as [|e reg IH]; simpl; [reflexivity|].
  f_equal. exact IH.
Qed.

Lemma purge_cons (u : string) (gone : list string)
      (reg : list (string * socket)) :
  purge (u :: gone) reg = purge gone (without u reg).
Proof.
  unfold purge, without. induction reg as [|[v s] reg IH]; [reflexivity|].
  cbn [filter fst]. rewrite IH.
  change (mem v (u :: gone)) with (String.eqb v u || mem v gone)%bool.
  destruct (String.eqb v u); cbn [negb orb filter fst]; reflexivity.
Qed.

Lemma purge_app (g1 g2 : list string) (reg : list (string * socket)) :
  purge (g1 ++ g2) reg = purge g2 (purge g1 reg).
Proof.
  revert reg. induction g1 as [|u g1 IH]; intros reg; simpl.
  - now rewrite purge_nil.
  - now rewrite !purge_cons, IH.
Qed.

Lemma removed_app (a b : list event) : removed (a ++ b) = removed a ++ removed b.
Proof.
  induction a as [|e a IH]; simpl; [reflexivity|].
  destruct e; simpl; now rewrite IH.
Qed.

Lemma failed_sends_app (a b : list event) :
  failed_sends (a ++ b) = failed_sends a + failed_sends b.
Proof.
  induction a as [|e a IH]; simpl; [reflexivity|].
  destruct e as [s p [|]| | |]; simpl; now rewrite IH.
Qed.

Lemma presence_casts_app (a b : list event) :
  presence_casts (a ++ b) = presence_casts a + presence_casts b.
Proof.
  induction a as [|e a IH]; simpl; [reflexivity|].
  destruct e; simpl; now rewrite IH.
Qed.

Lemma removals_app (a b : list event) :
  removals (a ++ b) = removals a + removals b.
Proof.
  induction a as [|e a IH]; simpl; [reflexivity|].
  destruct e; simpl; now rewrite IH.
Qed.

Lemma chat_deliveries_app (a b : list event) :
  chat_deliveries (a ++ b) = chat_deliveries a ++ chat_deliveries b.
Proof.
  induction a as [|e a IH]; simpl; [reflexivity|].
  destruct e as [s p ok| | |]; simpl; try assumption.
  destruct (is_chat p); simpl; now rewrite IH.
Qed.

Lemma failures_handled_app (reg : list (string * socket)) (a b : list event) :
  failures_handled reg a -> failures_handled reg b ->
  failures_handled reg (a ++ b).
Proof.
  induction a as [|e a IH]; simpl; [tauto|].
  destruct e as [s p [|]| | |]; simpl; auto.
  intros [Hhead Ha] Hb. split; [|auto].
  destruct a as [|[| |u|] [|[| | |us] a']]; simpl in *; tauto.
Qed.

Lemma events_since_app (st : state) (evs : list event)
      (us : list (string * string)) (reg : list (string * socket)) :
  events_since st (mkState us reg (log st ++ evs)) = evs.
Proof.
  unfold events_since. simpl.
  rewrite skipn_app, skipn_all, Nat.sub_diag. reflexivity.
Qed.

(** ** The fan-out loops against their traces *)

Section FanOut.

Variable env : environment.

Lemma fan_trace_length (p : json) (snap reg : list (string * socket))
      (evs : list event) (reg' : list (string * socket)) :
  fan_trace p snap reg evs reg' -> List.length reg' <= List.length reg.
Proof.
  induction 1; auto.
  pose proof (without_length u reg). lia.
Qed.

(** One iteration of either loop: the send, and on failure the removal
    followed by the presence broadcast [cast]. *)
Lemma deliver_step (cast : M unit) (p : json) (u : string) (s : socket)
      (st : state) :
  try_except (sendall env s p) (remove_client_with cast u) st =
    if sendall_raises env (log st) s
    then cast (mkState (users st) (without u (active_clients st))
                       ((log st ++ [Send s p false]) ++ [RemoveClient u]))
    else Done tt (mkState (users st) (active_clients st)
                          (log st ++ [Send s p true])).
Proof.
  unfold try_except, sendall, remove_client_with. run.
  destruct (sendall_raises env (log st) s); reflexivity.
Qed.

(** The loop of either broadcast, for any presence broadcast [cast] that
    is known to work on registries shorter than [n]. *)
Lemma loop_fans (cast : M unit) (n : nat) (p : json) :
  (forall st, List.length (active_clients st) < n -> casts_at cast st) ->
  forall snap st,
    List.length (active_clients st) < n \/
    (List.length (active_clients st) <= n /\
     forall e, In e snap -> In (fst e) (usernames_of (active_clients st))) ->
    fans_at (for_each snap
               (fun entry =>
                  try_except (sendall env (snd entry) p)
                             (remove_client_with cast (fst entry))))
            p snap st.
Proof.
  intros Hcast. induction snap as [|[u s] rest IH]; intros [us reg lg] Hinv.
  - exists [], reg. simpl. rewrite app_nil_r. split; [reflexivity|constructor].
  - unfold fans_at. cbn [for_each]. unfold bind at 1.
    cbn beta. cbn [fst snd]. rewrite deliver_step.
    cbn [log users active_clients].
    destruct (sendall_raises env lg s) eqn:Hs.
    + set (st1 := mkState us (without u reg)
                          ((lg ++ [Send s p false]) ++ [RemoveClient u])).
      assert (Hlt : List.length (active_clients st1) < n).
      { simpl. destruct Hinv as [Hlt | [Hle Hin]].
        - simpl in Hlt. pose proof (without_length u reg). lia.
        - simpl in Hle, Hin.
          pose proof (without_length_lt u reg (Hin (u, s) (or_introl eq_refl))).
          lia. }
      destruct (Hcast st1 Hlt) as (evs1 & reg1 & Hrun1 & evs0 & Hevs1 & Htr1).
      rewrite Hrun1. simpl in *.
      destruct (IH (mkState us reg1
                      (((lg ++ [Send s p false]) ++ [RemoveClient u]) ++ evs1)))
        as (evs2 & reg' & Hrun2 & Htr2).
      { left. simpl. apply fan_trace_length in Htr1. lia. }
      simpl in *. rewrite Hrun2.
      exists (Send s p false :: RemoveClient u :: evs1 ++ evs2), reg'.
      split.
      * f_equal. f_equal. rewrite <- !app_assoc. reflexivity.
      * subst evs1. simpl. now apply fan_failed with (reg1 := reg1).
    + destruct (IH (mkState us reg (lg ++ [Send s p true])))
        as (evs2 & reg' & Hrun2 & Htr2).
      { simpl in *. destruct Hinv as [Hlt | [Hle Hin]]; [now left|right].
        split; [assumption|]. intros e He. apply Hin. now right. }
      simpl in *. rewrite Hrun2.
      exists (Send s p true :: evs2), reg'. split.
      * f_equal. f_equal. rewrite <- app_assoc. reflexivity.
      * now constructor.
Qed.

Lemma broadcast_user_list_rec_S (f : nat) (st : state) :
  broadcast_user_list_rec env (S f) st =
    for_each (active_clients st)
      (fun entry =>
         try_except
           (sendall env (snd entry)
                    (user_list_record (usernames_of (active_clients st))))
           (remove_client_with (broadcast_user_list_rec env f) (fst entry)))
      (mkState (users st) (active_clients st)
               (log st ++ [UserListCast (usernames_of (active_clients st))])).
Proof. reflexivity. Qed.

Lemma broadcast_user_list_rec_casts (fuel : nat) (st : state) :
  List.length (active_clients st) < fuel ->
  casts_at (broadcast_user_list_rec env fuel) st.
Proof.
  revert st. induction fuel as [|f IH]; intros [us reg lg] Hlen; [simpl in Hlen; lia|].
  simpl in Hlen. unfold casts_at. rewrite broadcast_user_list_rec_S.
  cbn [users active_clients log].
  destruct (loop_fans (broadcast_user_list_rec env f) f
              (user_list_record (usernames_of reg)) IH reg
              (mkState us reg (lg ++ [UserListCast (usernames_of reg)])))
    as (evs & reg' & Hrun & Htr).
  { right. simpl. split; [lia|]. intros e He. now apply in_map. }
  cbn [users active_clients log] in *.
  exists (UserListCast (usernames_of reg) :: evs), reg'. split.
  - rewrite Hrun. f_equal. f_equal.
    rewrite <- app_assoc. reflexivity.
  - exists evs. split; [reflexivity | exact Htr].
Qed.

(** The presence broadcast returns from every state. *)
Lemma broadcast_user_list_casts (st : state) :
  casts_at (broadcast_user_list env) st.
Proof.
  unfold broadcast_user_list, casts_at.
  apply (broadcast_user_list_rec_casts _ st). lia.
Qed.

Lemma remove_client_runs (username : string) (st : state) :
  exists evs reg',
    remove_client env username st =
      Done tt (mkState (users st) reg'
                       (log st ++ RemoveClient username :: evs)) /\
    cast_trace (without username (active_clients st)) evs reg'.
Proof.
  destruct st as [us reg lg]. unfold remove_client, remove_client_with. run.
  destruct (broadcast_user_list_casts
              (mkState us (without username reg) (lg ++ [RemoveClient username])))
    as (evs & reg' & Hrun & Htr).
  simpl in *. rewrite Hrun. exists evs, reg'. split; [|exact Htr].
  f_equal. f_equal. rewrite <- app_assoc. reflexivity.
Qed.

Lemma broadcast_message_fans (message : json) (st : state) :
  fans_at (broadcast_message env message) message (active_clients st) st.
Proof.
  unfold broadcast_message. unfold bind at 1. unfold get_state.
  apply (loop_fans (broadcast_user_list env)
                   (S (List.length (active_clients st)))).
  - intros st' _. apply broadcast_user_list_casts.
  - left. lia.
Qed.

(** On a network where no write raises, a fan-out is one successful write
    per entry of the snapshot and nothing else. *)
Lemma loop_calm (cast : M unit) (p : json) :
  never_raises env ->
  forall snap st,
    for_each snap
      (fun entry =>
         try_except (sendall env (snd entry) p)
                    (remove_client_with cast (fst entry))) st =
      Done tt (mkState (users st) (active_clients st)
                       (log st ++ map (fun e => Send (snd e) p true) snap)).
Proof.
  intros Hcalm. induction snap as [|[u s] rest IH]; intros [us reg lg].
  - simpl. now rewrite app_nil_r.
  - cbn [for_each]. unfold bind at 1. cbn beta. cbn [fst snd].
    rewrite deliver_step. cbn [log users active_clients].
    rewrite Hcalm, IH. simpl. now rewrite <- app_assoc.
Qed.

Lemma remove_client_calm (username : string) (st : state) :
  never_raises env ->
  let reg := without username (active_clients st) in
  remove_client env username st =
    Done tt (mkState (users st) reg
               (log st ++ RemoveClient username
                  :: UserListCast (usernames_of reg)
                  :: map (fun e => Send (snd e)
                                        (user_list_record (usernames_of reg))
                                        true) reg)).
Proof.
  intros Hcalm reg. destruct st as [us r lg].
  unfold remove_client, remove_client_with. run.
  unfold broadcast_user_list. rewrite broadcast_user_list_rec_S.
  cbn [users active_clients log]. rewrite (loop_calm _ _ Hcalm).
  cbn [users active_clients log]. subst reg. simpl.
  now rewrite <- !app_assoc.
Qed.

End FanOut.

(** ** What a fan-out trace tells *)

(** The registry after a fan-out is the registry before it, less the
    entries of the usernames removed on the way. *)
Lemma fan_trace_purge (p : json) (snap reg : list (string * socket))
      (evs : list event) (reg' : list (string * socket)) :
  fan_trace p snap reg evs reg' -> reg' = purge (removed evs) reg.
Proof.
  induction 1 as [q r | q u s rest r evs0 r' _ IH
                 | q u s rest r evs1 r1 evs2 r' _ IH1 _ IH2].
  - simpl. now rewrite purge_nil.
  - simpl. assumption.
  - simpl. rewrite removed_app, purge_cons, purge_app.
    now rewrite <- IH1.
Qed.

Lemma purge_incl (gone : list string) (reg : list (string * socket)) :
  incl (purge gone reg) reg.
Proof. intros e H. apply filter_In in H. tauto. Qed.

(** Every entry of the snapshot gets its write of the payload. *)
Lemma fan_trace_attempts (p : json) (snap reg : list (string * socket))
      (evs : list event) (reg' : list (string * socket)) :
  fan_trace p snap reg evs reg' ->
  forall u s, In (u, s) snap -> exists ok, In (Send s p ok) evs.
Proof.
  induction 1 as [q r | q u s rest r evs0 r' _ IH
                 | q u s rest r evs1 r1 evs2 r' _ _ _ IH2];
    intros v t Hin.
  - destruct Hin.
  - destruct Hin as [E | Hin].
    + inversion E; subst. exists true. now left.
    + destruct (IH v t Hin) as [ok Hok]. exists ok. now right.
  - destruct Hin as [E | Hin].
    + inversion E; subst. exists false. now left.
    + destruct (IH2 v t Hin) as [ok Hok]. exists ok.
      right. right. right. apply in_or_app. now right.
Qed.

Lemma fan_trace_counts (p : json) (snap reg : list (string * socket))
      (evs : list event) (reg' : list (string * socket)) :
  fan_trace p snap reg evs reg' ->
  removals evs = failed_sends evs /\ presence_casts evs = failed_sends evs.
Proof.
  induction 1 as [q r | q u s rest r evs0 r' _ IH
                 | q u s rest r evs1 r1 evs2 r' _ IH1 _ IH2]; simpl.
  - auto.
  - assumption.
  - rewrite removals_app, presence_casts_app, failed_sends_app. lia.
Qed.

Lemma fan_trace_calm (p : json) (snap reg : list (string * socket))
      (evs : list event) (reg' : list (string * socket)) :
  fan_trace p snap reg evs reg' ->
  failed_sends evs = 0 ->
  reg' = reg /\ evs = map (fun e => Send (snd e) p true) snap.
Proof.
  induction 1 as [q r | q u s rest r evs0 r' _ IH | ]; simpl; intros Hcalm.
  - auto.
  - destruct (IH Hcalm) as [-> ->]. auto.
  - discriminate.
Qed.

Lemma fan_trace_handled (p : json) (snap reg : list (string * socket))
      (evs : list event) (reg' : list (string * socket)) :
  fan_trace p snap reg evs reg' ->
  forall known, incl snap known -> incl reg known ->
  failures_handled known evs.
Proof.
  induction 1 as [q r | q u s rest r evs0 r' _ IH
                 | q u s rest r evs1 r1 evs2 r' H1 IH1 _ IH2];
    intros known Hsnap Hreg.
  - exact I.
  - simpl. apply IH; [|assumption]. intros e He. apply Hsnap. now right.
  - assert (Hw : incl (without u r) known).
    { intros e He. apply Hreg. now apply (without_incl u r). }
    simpl. split; [apply Hsnap; now left|].
    apply failures_handled_app.
    + now apply IH1.
    + apply IH2.
      * intros e He. apply Hsnap. now right.
      * apply fan_trace_purge in H1. subst r1.
        intros e He. apply Hw. exact (purge_incl _ _ e He).
Qed.

Lemma mem_In (u : string) (l : list string) : mem u l = true <-> In u l.
Proof.
  unfold mem. rewrite existsb_exists. split.
  - intros [v [Hin E]]. apply String.eqb_eq in E. now subst.
  - intros Hin. exists u. split; [assumption | apply String.eqb_refl].
Qed.

(** A username is removed during a fan-out only after a write to a socket
    it keyed has raised. *)
Lemma fan_trace_removed (p : json) (snap reg : list (string * socket))
      (evs : list event) (reg' : list (string * socket)) :
  fan_trace p snap reg evs reg' ->
  forall known, incl snap known -> incl reg known ->
  forall u, In u (removed evs) ->
            exists s q, In (u, s) known /\ In (Send s q false) evs.
Proof.
  induction 1 as [q r | q u s rest r evs0 r' _ IH
                 | q u s rest r evs1 r1 evs2 r' H1 IH1 _ IH2];
    intros known Hsnap Hreg v Hv.
  - destruct Hv.
  - simpl in Hv. destruct (IH known) with (u := v) as (t & q' & Hin & Hs); auto.
    + intros e He. apply Hsnap. now right.
    + exists t, q'. split; [assumption | now right].
  - assert (Hw : incl (without u r) known).
    { intros e He. apply Hreg. now apply (without_incl u r). }
    simpl in Hv. rewrite removed_app in Hv.
    destruct Hv as [<- | Hv]; [|apply in_app_or in Hv; destruct Hv as [Hv | Hv]].
    + exists s, q. split; [apply Hsnap; now left | now left].
    + destruct (IH1 known Hw Hw v Hv) as (t & q' & Hin & Hs).
      exists t, q'. split; [assumption|].
      right. right. right. apply in_or_app. now left.
    + destruct (IH2 known) with (u := v) as (t & q' & Hin & Hs); auto.
      * intros e He. apply Hsnap. now right.
      * apply fan_trace_purge in H1. subst r1.
        intros e He. apply Hw. exact (purge_incl _ _ e He).
      * exists t, q'. split; [assumption|].
        right. right. right. apply in_or_app. now right.
Qed.

Lemma fan_trace_head (p : json) (snap reg : list (string * socket))
      (e : event) (evs : list event) (reg' : list (string * socket)) :
  fan_trace p snap reg (e :: evs) reg' -> exists s ok, e = Send s p ok.
Proof. intros H. inversion H; subst; eauto. Qed.

Lemma app_split_pair {A : Type} (a b l1 l2 : list A) (x y : A) :
  a ++ b = l1 ++ x :: y :: l2 ->
  (exists k, a = l1 ++ x :: y :: k /\ l2 = k ++ b) \/
  (exists k, b = k ++ x :: y :: l2 /\ l1 = a ++ k) \/
  (a = l1 ++ [x] /\ b = y :: l2).
Proof.
  revert l1. induction a as [|h a IH]; intros l1 H; simpl in H.
  - right. left. now exists l1.
  - destruct l1 as [|h' l1]; simpl in H.
    + injection H as -> H. destruct a as [|h2 a]; simpl in H.
      * right. right. now split.
      * injection H as -> H. left. now exists a.
    + injection H as -> H. destruct (IH l1 H)
        as [(k & -> & ->) | [(k & -> & ->) | (-> & ->)]].
      * left. now exists k.
      * right. left. now exists k.
      * right. right. now split.
Qed.

(** Each presence broadcast of a cascade lists, and is written to, exactly
    the entries left at that moment. *)
Lemma fan_trace_cascades (p : json) (snap reg : list (string * socket))
      (evs : list event) (reg' : list (string * socket)) :
  fan_trace p snap reg evs reg' -> cascades_delivered reg evs.
Proof.
  induction 1 as [q r | q u s rest r evs0 r' _ IH
                 | q u s rest r evs1 r1 evs2 r' H1 IH1 H2 IH2];
    intros before u' names after E.
  - destruct before; discriminate E.
  - destruct before as [|e before]; [discriminate E|].
    injection E as <- E. exact (IH before u' names after E).
  - destruct before as [|e1 [|e2 [|e3 before]]]; try discriminate E.
    + injection E as <- <- <- <-. simpl.
      rewrite purge_cons, purge_nil. split; [reflexivity|].
      intros v t Hin.
      destruct (fan_trace_attempts _ _ _ _ _ H1 v t Hin) as [ok Hok].
      exists ok. apply in_or_app. now left.
    + injection E as <- <- <- E. simpl. rewrite purge_cons.
      destruct (app_split_pair _ _ _ _ _ _ E)
        as [(k & -> & ->) | [(k & -> & ->) | (-> & ->)]].
      * destruct (IH1 before u' names k eq_refl) as [Hn Hs].
        split; [exact Hn|]. intros v t Hin.
        destruct (Hs v t Hin) as [ok Hok]. exists ok.
        apply in_or_app. now left.
      * apply fan_trace_purge in H1.
        rewrite removed_app, <- app_assoc, purge_app, <- H1.
        exact (IH2 k u' names after eq_refl).
      * destruct (fan_trace_head _ _ _ _ _ _ H2) as (t & ok & Habs).
        discriminate Habs.
Qed.

(** Presence broadcasts carry no chat record, and a chat fan-out carries
    its record once per entry of the snapshot, in the snapshot's order. *)
Lemma fan_trace_chat (p : json) (snap reg : list (string * socket))
      (evs : list event) (reg' : list (string * socket)) :
  fan_trace p snap reg evs reg' ->
  chat_deliveries evs =
    if is_chat p then map (fun e => (snd e, p)) snap else [].
Proof.
  induction 1 as [q r | q u s rest r evs0 r' _ IH
                 | q u s rest r evs1 r1 evs2 r' _ IH1 _ IH2]; simpl.
  - now destruct (is_chat q).
  - rewrite IH. now destruct (is_chat q).
  - rewrite chat_deliveries_app, IH1, IH2. simpl.
    now destruct (is_chat q).
Qed.

(** ** The registry and the broadcasts *)

Lemma fan_trace_best_effort (p : json) (reg : list (string * socket))
      (evs : list event) (reg' : list (string * socket)) :
  fan_trace p reg reg evs reg' -> best_effort p reg evs.
Proof.
  intros H. repeat split.
  - intros u s Hin. exact (fan_trace_attempts _ _ _ _ _ H u s Hin).
  - apply (fan_trace_handled _ _ _ _ _ H); apply incl_refl.
  - apply (fan_trace_counts _ _ _ _ _ H).
  - apply (fan_trace_counts _ _ _ _ _ H).
Qed.

(** C6.  A broadcast over a registry snapshot, of a chat record or of the
    presence listing, always returns and leaves the accounts alone.  Its
    events have the shape [fan_trace]: every sink of the snapshot gets a
    write of the same payload whatever happened to the writes before it;
    each write that raises is followed at once by [remove_client] for a
    username keying that sink, and by exactly one more presence broadcast
    (as many removals and as many further presence broadcasts as failed
    writes).  That removal goes by name and is real: only usernames with a
    failed write are removed, the registry afterwards is the one before
    less every entry of the removed usernames, and each of these presence
    broadcasts lists, and is written to, exactly the entries registered at
    that moment. *)
Theorem broadcast_is_best_effort (env : environment) (message : json)
        (st : state) :
  (exists st',
     broadcast_message env message st = Done tt st' /\
     users st' = users st /\
     fan_trace message (active_clients st) (active_clients st)
               (events_since st st') (active_clients st') /\
     best_effort message (active_clients st) (events_since st st') /\
     removed_for_failure (active_clients st) (events_since st st') /\
     cascades_delivered (active_clients st) (events_since st st') /\
     active_clients st' =
       purge (removed (events_since st st')) (active_clients st)) /\
  (exists st' evs,
     broadcast_user_list env st = Done tt st' /\
     users st' = users st /\
     events_since st st' =
       UserListCast (usernames_of (active_clients st)) :: evs /\
     fan_trace (user_list_record (usernames_of (active_clients st)))
               (active_clients st) (active_clients st) evs
               (active_clients st') /\
     best_effort (user_list_record (usernames_of (active_clients st)))
                 (active_clients st) evs /\
     removed_for_failure (active_clients st) evs /\
     cascades_delivered (active_clients st) evs /\
     active_clients st' = purge (removed evs) (active_clients st)).
Proof.
  assert (Hall : forall p reg evs reg',
             fan_trace p reg reg evs reg' ->
             best_effort p reg evs /\ removed_for_failure reg evs /\
             cascades_delivered reg evs /\ reg' = purge (removed evs) reg).
  { intros p reg evs reg' H. split; [|split; [|split]].
    - now apply fan_trace_best_effort with (reg' := reg').
    - exact (fan_trace_removed _ _ _ _ _ H reg (incl_refl _) (incl_refl _)).
    - exact (fan_trace_cascades _ _ _ _ _ H).
    - exact (fan_trace_purge _ _ _ _ _ H). }
  split.
  - destruct (broadcast_message_fans env message st)
      as (evs & reg' & Hrun & Htr).
    eexists. split; [exact Hrun|].
    rewrite events_since_app. cbn [users active_clients].
    split; [reflexivity|]. split; [exact Htr|]. exact (Hall _ _ _ _ Htr).
  - destruct (broadcast_user_list_casts env st)
      as (evs & reg' & Hrun & evs0 & -> & Htr).
    eexists. exists evs0. split; [exact Hrun|].
    rewrite events_since_app. cbn [users active_clients].
    split; [reflexivity|]. split; [reflexivity|].
    split; [exact Htr|]. exact (Hall _ _ _ _ Htr).
Qed.

(** C10, as the code has it.  [remove_client username] always returns, and
    afterwards no entry keyed [username] is left, however many there were:
    the list comprehension drops them all at once and keeps the other
    entries in their order.  The presence broadcast that follows may
    remove more: the registry in the end is that list less the entries of
    the usernames removed in cascade, each of them only after a write of
    the listing to a sink it keyed has raised.  An entry under another
    username is kept exactly when its username is not removed so. *)
Theorem remove_client_deletes_every_entry (env : environment)
        (username : string) (st : state) :
  exists st' evs,
    remove_client env username st = Done tt st' /\
    events_since st st' = RemoveClient username :: evs /\
    cast_trace (without username (active_clients st)) evs
               (active_clients st') /\
    active_clients st' =
      purge (removed evs) (without username (active_clients st)) /\
    removed_for_failure (without username (active_clients st)) evs /\
    (forall s, ~ In (username, s) (active_clients st')) /\
    (forall u s, u <> username ->
                 In (u, s) (active_clients st) ->
                 (In (u, s) (active_clients st') <->
                  mem u (removed evs) = false)).
Proof.
  destruct (remove_client_runs env username st)
    as (evs & reg' & Hrun & Hcast).
  pose proof Hcast as (evs0 & Hevs & Htr).
  eexists. exists evs. split; [exact Hrun|].
  rewrite events_since_app. split; [reflexivity|].
  cbn [active_clients]. split; [exact Hcast|].
  assert (E : reg' = purge (removed evs) (without username (active_clients st))).
  { subst evs. exact (fan_trace_purge _ _ _ _ _ Htr). }
  split; [exact E|]. split; [|split].
  - subst evs. intros u Hu. simpl in Hu.
    destruct (fan_trace_removed _ _ _ _ _ Htr _ (incl_refl _) (incl_refl _)
                u Hu) as (s & q & Hin & Hs).
    exists s, q. split; [assumption | now right].
  - intros s Hin. rewrite E in Hin. apply purge_incl in Hin.
    exact (without_no_key _ _ _ Hin).
  - intros u s Hne Hin. rewrite E. split.
    + intros H. apply filter_In in H. destruct H as [_ H]. simpl in H.
      now destruct (mem u (removed evs)).
    + intros Hkept. apply filter_In. split.
      * apply filter_In. split; [assumption|]. simpl.
        destruct (String.eqb u username) eqn:Eq; [|reflexivity].
        apply String.eqb_eq in Eq. contradiction.
      * simpl. now rewrite Hkept.
Qed.

(** C10, as the spec has it, fails on its last clause.  Every write to
    socket 2 raises: removing ["yosif"] also costs ["mohamed"] its entry,
    when the listing that follows the removal cannot be written to it. *)
Lemma remove_client_cascade_drops_other :
  exists st',
    remove_client socket2_down "yosif" four_clients = Done tt st' /\
    In ("mohamed", 2) (active_clients four_clients) /\
    "mohamed" <> "yosif" /\
    active_clients st' = [("ali", 4)] /\
    ~ In ("mohamed", 2) (active_clients st').
Proof.
  eexists. split; [cbv; reflexivity|].
  split; [simpl; tauto|]. split; [discriminate|].
  split; [reflexivity|]. simpl. intros [E | []]. discriminate E.
Qed.

Example remove_client_two_logins :
  exists st',
    remove_client calm "yosif" four_clients = Done tt st' /\
    active_clients st' = [("mohamed", 2); ("ali", 4)].
Proof. eexists. split; [cbv; reflexivity | reflexivity]. Qed.

(** C7, as the code has it.  When [u] keys no entry, [remove_client u]
    leaves the entries as they are, and all the same broadcasts the
    presence listing of that unchanged registry to every current sink,
    best effort; the registry afterwards is the one before, less only the
    entries that this broadcast removed because a write to them raised. *)
Theorem remove_absent_client_still_casts (env : environment) (u : string)
        (st : state) :
  ~ In u (usernames_of (active_clients st)) ->
  exists st' evs,
    remove_client env u st = Done tt st' /\
    users st' = users st /\
    events_since st st' =
      RemoveClient u :: UserListCast (usernames_of (active_clients st)) :: evs /\
    best_effort (user_list_record (usernames_of (active_clients st)))
                (active_clients st) evs /\
    active_clients st' = purge (removed evs) (active_clients st) /\
    (failed_sends evs = 0 -> active_clients st' = active_clients st).
Proof.
  intros Habsent.
  destruct (remove_client_runs env u st)
    as (evs & reg' & Hrun & evs0 & -> & Htr).
  rewrite (without_absent _ _ Habsent) in *.
  eexists. exists evs0. split; [exact Hrun|].
  rewrite events_since_app. cbn [users active_clients].
  split; [reflexivity|]. split; [reflexivity|].
  split; [now apply fan_trace_best_effort with (reg' := reg')|].
  split.
  - exact (fan_trace_purge _ _ _ _ _ Htr).
  - intros Hcalm. now destruct (fan_trace_calm _ _ _ _ _ Htr Hcalm).
Qed.

Lemma remove_absent_client_still_casts_witness :
  ~ In "ghost" (usernames_of (active_clients one_client)) /\
  exists st' evs,
    remove_client calm "ghost" one_client = Done tt st' /\
    users st' = users one_client /\
    events_since one_client st' =
      RemoveClient "ghost"
        :: UserListCast (usernames_of (active_clients one_client)) :: evs /\
    best_effort (user_list_record (usernames_of (active_clients one_client)))
                (active_clients one_client) evs /\
    active_clients st' = purge (removed evs) (active_clients one_client) /\
    (failed_sends evs = 0 -> active_clients st' = active_clients one_client).
Proof.
  assert (H : ~ In "ghost" (usernames_of (active_clients one_client))).
  { simpl. intros [E | []]. discriminate E. }
  split; [exact H|].
  exact (remove_absent_client_still_casts calm "ghost" one_client H).
Defined.

(** C7, as the spec has it, fails: removing the absent username ["ghost"]
    sends a presence listing to the sink of ["yosif"]. *)
Lemma remove_absent_client_broadcasts :
  ~ In "ghost" (usernames_of (active_clients one_client)) /\
  exists st',
    remove_client calm "ghost" one_client = Done tt st' /\
    active_clients st' = active_clients one_client /\
    events_since one_client st' =
      [RemoveClient "ghost"; UserListCast ["yosif"];
       Send 1 (user_list_record ["yosif"]) true] /\
    presence_casts (events_since one_client st') <> 0.
Proof.
  split.
  - simpl. intros [E | []]. discriminate E.
  - eexists. split; [cbv; reflexivity|]. split; [reflexivity|].
    split; [reflexivity|]. simpl. discriminate.
Qed.

(** ** The reader loop *)

Lemma split1_line (line rest : string) :
  Text.split1 line = None ->
  Text.split1 (line ++ Text.newline ++ rest)%string = Some (line, rest).
Proof.
  induction line as [|c line IH]; intros H; simpl in *.
  - reflexivity.
  - destruct (Ascii.eqb c Text.LF); [discriminate|].
    destruct (Text.split1 line) as [[l r]|]; [discriminate|].
    now rewrite IH.
Qed.

Lemma split1_shorter (s line rest : string) :
  Text.split1 s = Some (line, rest) -> String.length rest < String.length s.
Proof.
  revert line. induction s as [|c s IH]; simpl; intros line H; [discriminate|].
  destruct (Ascii.eqb c Text.LF).
  - inversion H; subst. lia.
  - destruct (Text.split1 s) as [[l r]|]; [|discriminate].
    inversion H; subst. specialize (IH l eq_refl). lia.
Qed.

Lemma line_with_newline_not_empty (line rest : string) :
  Text.is_empty (line ++ Text.newline ++ rest)%string = false.
Proof. destruct line; reflexivity. Qed.

Lemma strftime_HM_length (d : datetime) : String.length (strftime_HM d) = 5.
Proof. reflexivity. Qed.

Section ReaderLoop.

Variable env : environment.

(** A line the JSON reader rejects is dropped: nothing is sent, nothing
    changes, and the loop goes on. *)
Lemma undecodable_line_dropped (username line : string) (st : state) :
  json_loads env line = JSONDecodeError ->
  process_line env username line st = Done tt st.
Proof.
  intros H. unfold process_line. rewrite H.
  destruct (Text.is_empty (Text.strip line)); reflexivity.
Qed.

(** So is a dict whose ["type"] is not ["message"]. *)
Lemma other_type_dropped (username line : string)
      (pkt : list (string * json)) (st : state) :
  json_loads env line = Loaded (JObj pkt) ->
  str_eq (Dict.get "type" pkt) "message" = false ->
  process_line env username line st = Done tt st.
Proof.
  intros H Ht. unfold process_line. rewrite H, Ht.
  destruct (Text.is_empty (Text.strip line)); reflexivity.
Qed.

(** A document that is not a dict, or a chat dict without ["content"],
    raises out of the loop body. *)
Lemma non_dict_line_raises (username line : string) (v : json) (st : state) :
  Text.is_empty (Text.strip line) = false ->
  json_loads env line = Loaded v ->
  (forall pkt, v <> JObj pkt) ->
  process_line env username line st = Raised st.
Proof.
  intros Hne H Hv. unfold process_line. rewrite Hne, H.
  destruct v; try reflexivity. now destruct (Hv items).
Qed.

Lemma process_line_chat (username line : string)
      (pkt : list (string * json)) (content : json) (st : state) :
  Text.is_empty (Text.strip line) = false ->
  json_loads env line = Loaded (JObj pkt) ->
  str_eq (Dict.get "type" pkt) "message" = true ->
  Dict.get "content" pkt = Some content ->
  process_line env username line st =
    broadcast_message env
      (message_record username content
                      (strftime_HM (datetime_now env (log st)))) st.
Proof.
  intros Hne H Ht Hc. unfold process_line. rewrite Hne, H, Ht, Hc.
  reflexivity.
Qed.

(** The loop body never runs out of budget: it returns or raises. *)
Lemma process_line_runs (username line : string) (st : state) :
  exists st', process_line env username line st = Done tt st' \/
              process_line env username line st = Raised st'.
Proof.
  unfold process_line.
  destruct (Text.is_empty (Text.strip line)); [exists st; now left|].
  destruct (json_loads env line) as [v| |];
    [|exists st; now left|exists st; now right].
  destruct v; try (exists st; now right).
  destruct (str_eq (Dict.get "type" items) "message"); [|exists st; now left].
  destruct (Dict.get "content" items) as [c|]; [|exists st; now right].
  unfold bind, get_state.
  destruct (broadcast_message_fans env
              (message_record username c
                 (strftime_HM (datetime_now env (log st)))) st)
    as (evs & reg' & Hrun & _).
  eexists. left. exact Hrun.
Qed.

Lemma drain_rec_runs (username : string) (fuel : nat) :
  forall buffer st,
    String.length buffer < fuel ->
    exists st', (exists b, drain_rec env fuel username buffer st = Done b st') \/
                drain_rec env fuel username buffer st = Raised st'.
Proof.
  induction fuel as [|f IH]; intros buffer st Hlen; [lia|].
  cbn [drain_rec].
  destruct (Text.split1 buffer) as [[line rest]|] eqn:Hs.
  - apply split1_shorter in Hs.
    unfold bind.
    destruct (process_line_runs username line st) as [st1 [H1 | H1]];
      rewrite H1.
    + apply IH. lia.
    + exists st1. now right.
  - exists st. left. now exists buffer.
Qed.

(** The reader loop returns for every sequence of reads: whatever is
    raised inside is caught by its bare [except]. *)
Lemma listen_loop_returns (username : string) (reads : list recv_result) :
  forall buffer st,
    exists r st', listen_loop env username reads buffer st = Done r st'.
Proof.
  induction reads as [|r reads IH]; intros buffer st.
  - now exists (Reading buffer), st.
  - cbn [listen_loop]. unfold bind at 1. unfold try_except.
    assert (Hfin : forall st0, exists st',
               (remove_client env username ;; ret Finished) st0
               = Done Finished st').
    { intros st0. unfold bind, ret.
      destruct (remove_client_runs env username st0) as (evs & reg' & Hrun & _).
      rewrite Hrun. eexists. reflexivity. }
    destruct r as [data|].
    + destruct (Text.is_empty data).
      * unfold raise. destruct (Hfin st) as [st' ->].
        now exists Finished, st'.
      * unfold bind at 1. unfold drain.
        destruct (drain_rec_runs username
                    (S (String.length (buffer ++ data))) (buffer ++ data) st
                    (Nat.lt_succ_diag_r _)) as [st1 [[b H1] | H1]];
          rewrite H1.
        -- unfold ret. apply IH.
        -- destruct (Hfin st1) as [st' ->]. now exists Finished, st'.
    + unfold raise. destruct (Hfin st) as [st' ->]. now exists Finished, st'.
Qed.

End ReaderLoop.

Lemma length_line_newline (line : string) :
  String.length (line ++ Text.newline) = S (String.length line).
Proof. induction line as [|c line IH]; simpl; [reflexivity | now rewrite IH]. Qed.

Lemma split1_one_line (line : string) :
  Text.split1 line = None ->
  Text.split1 (line ++ Text.newline) = Some (line, "").
Proof. intros H. exact (split1_line line "" H). Qed.

(** One read that brings exactly one line: the loop body runs on that line
    and the reader waits again, with an empty buffer. *)
Lemma listen_one_line (env : environment) (sock : socket)
      (username line : string) (st st' : state) :
  Text.split1 line = None ->
  process_line env username line st = Done tt st' ->
  listen_for_messages env sock username [Recv (line ++ Text.newline)] st =
    Done (Reading "") st'.
Proof.
  intros Hline Hrun. unfold listen_for_messages. cbn [listen_loop].
  unfold bind at 1. unfold try_except.
  change (Text.is_empty (line ++ Text.newline))
    with (Text.is_empty (line ++ Text.newline ++ "")).
  rewrite line_with_newline_not_empty.
  unfold bind at 1. change ("" ++ line ++ Text.newline)%string
    with (line ++ Text.newline)%string.
  unfold drain. rewrite length_line_newline. cbn [drain_rec].
  rewrite (split1_one_line _ Hline). unfold bind at 1. rewrite Hrun.
  reflexivity.
Qed.


(** C1, as the code has it.  When the session of [username] reads one
    line that parses as a dict with ["type"] equal to ["message"] and with
    some ["content"], empty or not, the reader stays in its loop and the
    record [{type: message, sender: username, content, time}] is written
    exactly once to every sink of the registry snapshot, in its order, the
    sender's own included.  The sender is the session's username whatever
    else the dict holds, and the time is the server clock printed as five
    characters [HH:MM]. *)
Theorem chat_line_is_broadcast (env : environment) (sock : socket)
        (username line : string) (pkt : list (string * json))
        (content : json) (st : state) :
  Text.split1 line = None ->
  Text.is_empty (Text.strip line) = false ->
  json_loads env line = Loaded (JObj pkt) ->
  str_eq (Dict.get "type" pkt) "message" = true ->
  Dict.get "content" pkt = Some content ->
  exists st' time,
    listen_for_messages env sock username [Recv (line ++ Text.newline)] st =
      Done (Reading "") st' /\
    time = strftime_HM (datetime_now env (log st)) /\
    String.length time = 5 /\
    users st' = users st /\
    chat_deliveries (events_since st st') =
      map (fun e => (snd e, message_record username content time))
          (active_clients st) /\
    best_effort (message_record username content time) (active_clients st)
                (events_since st st').
Proof.
  intros Hline Hne Hload Htype Hcontent.
  pose proof (process_line_chat env username line pkt content st
                                Hne Hload Htype Hcontent) as Hp.
  destruct (broadcast_message_fans env
              (message_record username content
                 (strftime_HM (datetime_now env (log st)))) st)
    as (evs & reg' & Hrun & Htr).
  rewrite <- Hp in Hrun.
  eexists. exists (strftime_HM (datetime_now env (log st))).
  split; [exact (listen_one_line env sock username line st _ Hline Hrun)|].
  split; [reflexivity|]. split; [apply strftime_HM_length|].
  split; [reflexivity|]. rewrite events_since_app. split.
  - rewrite (fan_trace_chat _ _ _ _ _ Htr). reflexivity.
  - now apply fan_trace_best_effort with (reg' := reg').
Qed.

Lemma chat_line_is_broadcast_witness :
  exists st' time,
    listen_for_messages calm 1 "yosif"
                        [Recv (chat_line "hi" ++ Text.newline)] two_clients =
      Done (Reading "") st' /\
    time = strftime_HM (datetime_now calm (log two_clients)) /\
    String.length time = 5 /\
    users st' = users two_clients /\
    chat_deliveries (events_since two_clients st') =
      map (fun e => (snd e, message_record "yosif" (JStr "hi") time))
          (active_clients two_clients) /\
    best_effort (message_record "yosif" (JStr "hi") time)
                (active_clients two_clients)
                (events_since two_clients st').
Proof.
  apply (chat_line_is_broadcast calm 1 "yosif" (chat_line "hi")
           [("type", JStr "message"); ("content", JStr "hi")]
           (JStr "hi") two_clients); reflexivity.
Defined.

(** C1, as the spec has it, fails on its last sentence: a chat record with
    empty content is broadcast like any other. *)
Lemma empty_content_is_broadcast :
  json_loads calm (chat_line "") =
    Loaded (JObj [("type", JStr "message"); ("content", JStr "")]) /\
  exists st',
    listen_for_messages calm 1 "yosif"
                        [Recv (chat_line "" ++ Text.newline)] two_clients =
      Done (Reading "") st' /\
    chat_deliveries (events_since two_clients st') =
      [(1, message_record "yosif" (JStr "") "09:05");
       (2, message_record "yosif" (JStr "") "09:05")] /\
    chat_deliveries (events_since two_clients st') <> [].
Proof.
  split; [reflexivity|].
  eexists. split; [cbv; reflexivity|].
  split; [reflexivity|]. discriminate.
Qed.

(** C3 on a line the code does not drop.  The line [42] is JSON but not a
    dict: [pkt.get] raises, the bare [except] of the reader takes it for a
    disconnection, removes the session from the registry, broadcasts the
    new presence listing and leaves the loop.  The chat line that follows
    is never read. *)
Theorem non_dict_line_ends_session :
  json_loads calm "42" = Loaded (JInt 42) /\
  listen_for_messages calm 1 "yosif"
      [Recv ("42" ++ Text.newline); Recv (chat_line "hi" ++ Text.newline)]
      two_clients =
    Done Finished
         (mkState Database.default_users [("mohamed", 2)]
                  [RemoveClient "yosif"; UserListCast ["mohamed"];
                   Send 2 (user_list_record ["mohamed"]) true]).
Proof. split; reflexivity. Qed.

(** ** The handshake *)


Lemma has_username_spec (u : string) (rows : list (string * string)) :
  Database.has_username u rows = true <-> exists p, In (u, p) rows.
Proof.
  unfold Database.has_username. rewrite existsb_exists. split.
  - intros [[v p] [Hin E]]. simpl in E. apply String.eqb_eq in E. subst.
    now exists p.
  - intros [p Hin]. exists (u, p). split; [assumption|]. apply String.eqb_refl.
Qed.

Lemma valid_pair_spec (u p : string) (rows : list (string * string)) :
  valid_pair u p rows = true <-> In (u, p) rows.
Proof.
  unfold valid_pair. rewrite existsb_exists. split.
  - intros [[v q] [Hin E]]. simpl in E. apply andb_true_iff in E.
    destruct E as [E1 E2]. apply String.eqb_eq in E1, E2. now subst.
  - intros Hin. exists (u, p). split; [assumption|]. simpl.
    now rewrite !String.eqb_refl.
Qed.

Lemma str_eq_true (v : option json) (literal : string) :
  str_eq v literal = true -> v = Some (JStr literal).
Proof.
  destruct v as [[]|]; simpl; try discriminate.
  intros E. apply String.eqb_eq in E. now subst.
Qed.

(** [handle_auth] never touches the registry, whether it returns or
    raises. *)
Lemma handle_auth_keeps_registry (env : environment) (sock : socket)
      (first_read : recv_result) (st : state) :
  match handle_auth env sock first_read st with
  | Done _ st' | Raised st' => active_clients st' = active_clients st
  | Stuck => True
  end.
Proof.
  unfold handle_auth, Database.register_user, Database.validate_user,
    sendall.
  run.
  repeat break_match; auto.
Qed.

(** C9.  When the first read of a new connection gives no data,
    [handle_auth] returns [None] without a write, and [client_handler]
    closes the socket: the only event is the close, no acknowledgment of
    either kind is sent, and the registry and the accounts are as before. *)
Theorem empty_first_read_closes_silently (env : environment) (sock : socket)
        (st : state) :
  handle_auth env sock (Recv "") st = Done None st /\
  exists st',
    client_handler env sock (Recv "") st = Done tt st' /\
    events_since st st' = [Close sock] /\
    active_clients st' = active_clients st /\
    users st' = users st.
Proof.
  split; [reflexivity|].
  eexists. split; [reflexivity|].
  rewrite events_since_app. auto.
Qed.

(** C4.  A [register] handshake with text username [u] and password [p].
    The account is created iff no row has the username [u]; the reply
    written is the success record in that case and the error record
    ["Username already exists"] otherwise.  In both cases [handle_auth]
    returns [None], [client_handler] closes the socket, and the registry
    is never touched.  (When the write of the reply raises, the exception
    leaves both functions; the registry is untouched then too.) *)
Theorem register_handshake (env : environment) (sock : socket) (raw : string)
        (creds : list (string * json)) (u p : string) (st : state) :
  Text.is_empty raw = false ->
  json_loads env (Text.strip raw) = Loaded (JObj creds) ->
  str_eq (Dict.get "action" creds) "register" = true ->
  Dict.get "username" creds = Some (JStr u) ->
  Dict.get "password" creds = Some (JStr p) ->
  let taken := Database.has_username u (users st) in
  let reply :=
    if taken then status_error "Username already exists" else status_success in
  let sent := negb (sendall_raises env (log st) sock) in
  let st1 := mkState (if taken then users st else users st ++ [(u, p)])
                     (active_clients st)
                     (log st ++ [Send sock reply sent]) in
  (taken = true <-> exists q, In (u, q) (users st)) /\
  handle_auth env sock (Recv raw) st =
    (if sent then Done None st1 else Raised st1) /\
  client_handler env sock (Recv raw) st =
    (if sent
     then Done tt (mkState (users st1) (active_clients st)
                           (log st1 ++ [Close sock]))
     else Raised st1).
Proof.
  intros Hraw Hload Haction Huser Hpwd taken reply sent st1.
  split; [apply has_username_spec|].
  assert (Hauth : handle_auth env sock (Recv raw) st =
                    (if sent then Done None st1 else Raised st1)).
  { subst taken reply sent st1.
    unfold handle_auth. rewrite Hraw, Hload, Haction, Huser, Hpwd.
    unfold Database.register_user, sendall. run.
    destruct (Database.has_username u (users st)); simpl;
      destruct (sendall_raises env (log st) sock); reflexivity. }
  split; [exact Hauth|].
  unfold client_handler, bind. rewrite Hauth.
  destruct sent; reflexivity.
Qed.

(** C5.  A [login] handshake with text username [u] and password [p].
    When the accounts hold the pair [(u, p)] the reply written is the
    success record and [handle_auth] returns [u]; otherwise the reply is
    the error record ["Invalid credentials"], [handle_auth] returns
    [None], and [client_handler] closes the socket and leaves the registry
    as it was. *)
Theorem login_handshake (env : environment) (sock : socket) (raw : string)
        (creds : list (string * json)) (u p : string) (st : state) :
  Text.is_empty raw = false ->
  json_loads env (Text.strip raw) = Loaded (JObj creds) ->
  str_eq (Dict.get "action" creds) "login" = true ->
  Dict.get "username" creds = Some (JStr u) ->
  Dict.get "password" creds = Some (JStr p) ->
  let valid := valid_pair u p (users st) in
  let reply :=
    if valid then status_success else status_error "Invalid credentials" in
  let sent := negb (sendall_raises env (log st) sock) in
  let st1 := mkState (users st) (active_clients st)
                     (log st ++ [Send sock reply sent]) in
  (valid = true <-> In (u, p) (users st)) /\
  handle_auth env sock (Recv raw) st =
    (if sent then Done (if valid then Some u else None) st1 else Raised st1) /\
  (valid = false ->
   client_handler env sock (Recv raw) st =
     (if sent
      then Done tt (mkState (users st) (active_clients st)
                            (log st1 ++ [Close sock]))
      else Raised st1)).
Proof.
  intros Hraw Hload Haction Huser Hpwd valid reply sent st1.
  split; [apply valid_pair_spec|].
  assert (Hreg : str_eq (Dict.get "action" creds) "register" = false).
  { now rewrite (str_eq_true _ _ Haction). }
  assert (Hauth : handle_auth env sock (Recv raw) st =
                    (if sent then Done (if valid then Some u else None) st1
                     else Raised st1)).
  { subst valid reply sent st1.
    unfold handle_auth. rewrite Hraw, Hload, Hreg, Haction, Huser, Hpwd.
    unfold Database.validate_user, sendall, valid_pair. run.
    destruct (existsb _ (users st)); simpl;
      destruct (sendall_raises env (log st) sock); reflexivity. }
  split; [exact Hauth|].
  intros Hinvalid. unfold client_handler, bind. rewrite Hauth, Hinvalid.
  destruct sent; reflexivity.
Qed.


Lemma register_handshake_witness :
  handle_auth calm 1 (Recv (credentials_line "register" "alice" "pw1"))
              (initial_state []) =
    Done None
         (mkState [("yosif", "1010"); ("mohamed", "1010"); ("alice", "pw1")]
                  [] [Send 1 status_success true]) /\
  client_handler calm 1 (Recv (credentials_line "register" "alice" "pw1"))
                 (initial_state []) =
    Done tt
         (mkState [("yosif", "1010"); ("mohamed", "1010"); ("alice", "pw1")]
                  [] [Send 1 status_success true; Close 1]).
Proof.
  destruct (register_handshake calm 1
              (credentials_line "register" "alice" "pw1")
              register_alice "alice" "pw1" (initial_state [])
              eq_refl eq_refl eq_refl eq_refl eq_refl)
    as (_ & Hauth & Hclient).
  split; [exact Hauth | exact Hclient].
Defined.

Example register_taken_username :
  client_handler calm 1 (Recv (credentials_line "register" "yosif" "other"))
                 (initial_state []) =
    Done tt
         (mkState [("yosif", "1010"); ("mohamed", "1010")] []
                  [Send 1 (status_error "Username already exists") true;
                   Close 1]).
Proof. reflexivity. Qed.

Lemma login_handshake_witness :
  handle_auth calm 1 (Recv (credentials_line "login" "yosif" "1010"))
              (initial_state []) =
    Done (Some "yosif")
         (mkState [("yosif", "1010"); ("mohamed", "1010")] []
                  [Send 1 status_success true]).
Proof.
  destruct (login_handshake calm 1
              (credentials_line "login" "yosif" "1010")
              login_yosif "yosif" "1010" (initial_state [])
              eq_refl eq_refl eq_refl eq_refl eq_refl)
    as (_ & Hauth & _).
  exact Hauth.
Defined.

Example login_wrong_password :
  client_handler calm 1 (Recv (credentials_line "login" "yosif" "0000"))
                 (initial_state []) =
    Done tt
         (mkState [("yosif", "1010"); ("mohamed", "1010")] []
                  [Send 1 (status_error "Invalid credentials") true;
                   Close 1]).
Proof. reflexivity. Qed.

(** A success record is written, and yet the session is closed, when the
    authenticated username is the empty string: [if not username] in
    [client_handler] cannot tell it from [None]. *)
Example login_empty_username :
  client_handler calm 1 (Recv (credentials_line "login" "" "pw"))
                 (mkState [("", "pw")] [] []) =
    Done tt (mkState [("", "pw")] [] [Send 1 status_success true; Close 1]).
Proof. reflexivity. Qed.




(** A chat broadcast over four sessions while every write to socket 2
    raises: the three other sinks get the record, ["mohamed"] is removed,
    and the sinks left get one presence listing. *)
Example broadcast_with_dead_sink :
  let hello := message_record "yosif" (JStr "hi") "23:59" in
  broadcast_message socket2_down hello four_clients =
    Done tt
      (mkState Database.default_users
         [("yosif", 1); ("yosif", 3); ("ali", 4)]
         [Send 1 hello true;
          Send 2 hello false;
          RemoveClient "mohamed";
          UserListCast ["yosif"; "yosif"; "ali"];
          Send 1 (user_list_record ["yosif"; "yosif"; "ali"]) true;
          Send 3 (user_list_record ["yosif"; "yosif"; "ali"]) true;
          Send 4 (user_list_record ["yosif"; "yosif"; "ali"]) true;
          Send 3 hello true;
          Send 4 hello true]).
Proof. reflexivity. Qed.

(** * Further properties of the server *)

(** ** The accounts *)

Lemma has_username_app (u : string) (rows more : list (string * string)) :
  Database.has_username u (rows ++ more) =
    Database.has_username u rows || Database.has_username u more.
Proof. unfold Database.has_username. apply existsb_app. Qed.

Lemma has_username_In (u : string) (rows : list (string * string)) :
  Database.has_username u rows = true <-> In u (map fst rows).
Proof.
  rewrite has_username_spec. split.
  - intros [p Hin]. apply in_map_iff. now exists (u, p).
  - intros Hin. apply in_map_iff in Hin. destruct Hin as [[v p] [E Hin]].
    simpl in E. subst. now exists p.
Qed.

Lemma usernames_unique_add (u p : string) (rows : list (string * string)) :
  usernames_unique rows ->
  Database.has_username u rows = false ->
  usernames_unique (rows ++ [(u, p)]).
Proof.
  unfold usernames_unique. intros Hnd Hfresh. rewrite map_app. simpl.
  apply NoDup_app.
  - assumption.
  - constructor; [intros [] | constructor].
  - intros v Hin [E | []]. subst v.
    apply has_username_In in Hin. congruence.
Qed.

Lemma valid_pair_has_username (u p : string) (rows : list (string * string)) :
  valid_pair u p rows = true -> Database.has_username u rows = true.
Proof.
  intros H. apply valid_pair_spec in H. apply has_username_spec. now exists p.
Qed.

(** X1.  Registering a free username with text values returns [True],
    appends the account, and from then on [validate_user] accepts exactly
    the registered password for that username. *)
Theorem register_then_validate (u p : string) (st : state) :
  Database.has_username u (users st) = false ->
  exists st1,
    Database.register_user (Some (JStr u)) (Some (JStr p)) st = Done true st1 /\
    users st1 = users st ++ [(u, p)] /\
    forall q,
      Database.validate_user (Some (JStr u)) (Some (JStr q)) st1 =
        Done (String.eqb p q) st1.
Proof.
  intros Hfresh. eexists. split; [|split].
  - unfold Database.register_user. simpl. run. rewrite Hfresh. reflexivity.
  - reflexivity.
  - intros q. unfold Database.validate_user. simpl. run. f_equal.
    rewrite existsb_app. simpl. rewrite String.eqb_refl, orb_false_r. simpl.
    replace (existsb _ (users st)) with false; [reflexivity|].
    symmetry. apply not_true_is_false. intros H.
    apply (valid_pair_has_username u q) in H. congruence.
Qed.

Lemma register_then_validate_witness :
  Database.has_username "alice" (users (initial_state [])) = false /\
  exists st1,
    Database.register_user (Some (JStr "alice")) (Some (JStr "pw1"))
                           (initial_state []) = Done true st1 /\
    users st1 = users (initial_state []) ++ [("alice", "pw1")] /\
    forall q,
      Database.validate_user (Some (JStr "alice")) (Some (JStr q)) st1 =
        Done (String.eqb "pw1" q) st1.
Proof.
  split; [reflexivity|].
  exact (register_then_validate "alice" "pw1" (initial_state []) eq_refl).
Defined.

(** X2.  Whatever values [register_user] is called with, when it returns
    the usernames of the table are still pairwise distinct, every account
    that was there is still there with its password, only the log and the
    registry are as before, and a [False] result means that nothing
    changed at all. *)
Theorem register_user_keeps_accounts (username password : option json)
        (ok : bool) (st st' : state) :
  usernames_unique (users st) ->
  Database.register_user username password st = Done ok st' ->
  usernames_unique (users st') /\
  (forall v q, In (v, q) (users st) -> In (v, q) (users st')) /\
  active_clients st' = active_clients st /\
  log st' = log st /\
  (ok = false -> st' = st).
Proof.
  intros Hnd. unfold Database.register_user.
  destruct (Database.bind_param username) as [[|u]|];
    destruct (Database.bind_param password) as [[|p]|];
    run; try discriminate;
    try (intros H; injection H as <- <-; repeat split; auto; fail).
  destruct (Database.has_username u (users st)) eqn:Hu; intros H;
    injection H as <- <-; simpl.
  - repeat split; auto.
  - repeat split; auto.
    + now apply usernames_unique_add.
    + intros v q Hin. apply in_or_app. now left.
    + discriminate.
Qed.

Lemma register_user_keeps_accounts_witness :
  usernames_unique (users (initial_state [])) /\
  (usernames_unique (users alice_registered) /\
   (forall v q, In (v, q) (users (initial_state [])) ->
                In (v, q) (users alice_registered)) /\
   active_clients alice_registered = active_clients (initial_state []) /\
   log alice_registered = log (initial_state []) /\
   (true = false -> alice_registered = initial_state [])).
Proof.
  assert (H : usernames_unique (users (initial_state []))).
  { unfold usernames_unique. simpl. repeat constructor; simpl.
    - intros [E | []]. discriminate E.
    - intros []. }
  split; [exact H|].
  exact (register_user_keeps_accounts (Some (JStr "alice")) (Some (JStr "pw1"))
           true (initial_state []) alice_registered H eq_refl).
Defined.

Lemma insert_or_ignore_spec (row : string * string)
      (rows : list (string * string)) :
  let rows' := if Database.has_username (fst row) rows then rows
               else rows ++ [row] in
  (usernames_unique rows -> usernames_unique rows') /\
  Database.has_username (fst row) rows' = true /\
  (forall u, Database.has_username u rows = true ->
             Database.has_username u rows' = true) /\
  exists more, rows' = rows ++ more.
Proof.
  destruct row as [u p]. simpl.
  destruct (Database.has_username u rows) eqn:Hu.
  - repeat split; auto. exists []. now rewrite app_nil_r.
  - repeat split.
    + intros H. now apply usernames_unique_add.
    + rewrite has_username_app. unfold Database.has_username at 2. simpl.
      rewrite String.eqb_refl. now rewrite orb_true_r.
    + intros v Hv. rewrite has_username_app, Hv. reflexivity.
    + now exists [(u, p)].
Qed.

(** X3.  Opening the database on any table keeps every row it holds, in
    place and with its password (a stored ["yosif"] is not reset to the
    default password), keeps the usernames distinct, and makes sure that
    both default usernames exist; opening it again adds nothing. *)
Theorem init_keeps_rows_and_adds_defaults (rows : list (string * string)) :
  (exists more, Database.init rows = rows ++ more) /\
  (usernames_unique rows -> usernames_unique (Database.init rows)) /\
  Database.has_username "yosif" (Database.init rows) = true /\
  Database.has_username "mohamed" (Database.init rows) = true /\
  Database.init (Database.init rows) = Database.init rows.
Proof.
  unfold Database.init, Database.add_default_users, Database.default_users.
  cbn [fold_left].
  pose proof (insert_or_ignore_spec ("yosif", "1010") rows) as H1.
  cbv zeta in H1. cbn [fst] in *.
  set (r1 := if Database.has_username "yosif" rows then rows
             else rows ++ [("yosif", "1010")]) in *.
  pose proof (insert_or_ignore_spec ("mohamed", "1010") r1) as H2.
  cbv zeta in H2. cbn [fst] in *.
  set (r2 := if Database.has_username "mohamed" r1 then r1
             else r1 ++ [("mohamed", "1010")]) in *.
  destruct H1 as (Hu1 & Hy1 & Hm1 & more1 & E1).
  destruct H2 as (Hu2 & Hy2 & Hm2 & more2 & E2).
  assert (Hy : Database.has_username "yosif" r2 = true) by auto.
  repeat split; auto.
  - exists (more1 ++ more2). rewrite E2, E1. now rewrite app_assoc.
  - rewrite Hy. now rewrite Hy2.
Qed.

(** ** The handshake, all branches *)

(** On a plain handshake the model has an answer: [handle_auth] returns
    or raises. *)
Lemma plain_handshake_runs (env : environment) (sock : socket)
      (first_read : recv_result) (st : state) :
  plain_handshake env first_read ->
  exists st', final_state (handle_auth env sock first_read st) = Some st'.
Proof.
  intros Hplain. unfold handle_auth.
  destruct first_read as [raw|]; [|eexists; reflexivity].
  destruct (Text.is_empty raw); [eexists; reflexivity|].
  specialize (Hplain raw).
  destruct (json_loads env (Text.strip raw)) as [v| |].
  - destruct v; try (eexists; reflexivity).
    destruct (Hplain items eq_refl eq_refl) as [Hu Hp].
    unfold Database.register_user, Database.validate_user, sendall.
    destruct (Dict.get "username" items) as [[]|];
      destruct (Dict.get "password" items) as [[]|];
      try discriminate; run;
      repeat break_match; eexists; reflexivity.
  - unfold sendall. run. break_match; eexists; reflexivity.
  - eexists. reflexivity.
Qed.

Lemma handle_auth_footprint_any (env : environment) (sock : socket)
      (first_read : recv_result) (st st' : state) :
  final_state (handle_auth env sock first_read st) = Some st' ->
  active_clients st' = active_clients st /\
  (exists evs, log st' = log st ++ evs /\
               (evs = [] \/ exists p ok, evs = [Send sock p ok])) /\
  (users st' = users st \/
   exists u p, Database.has_username u (users st) = false /\
               users st' = users st ++ [(u, p)]).
Proof.
  unfold handle_auth, Database.register_user, Database.validate_user, sendall.
  run.
  repeat break_match_eq; simpl; intros H; try discriminate;
    injection H as <-; simpl;
    (split; [reflexivity|]);
    (split; [first [ exists []; rewrite app_nil_r; split; [reflexivity | now left]
                   | eexists; split; [reflexivity | right; eauto] ] |]);
    first [ now left | right; eauto ].
Qed.

(** X4.  For every first read whose username and password, when it parses
    to a dict, are text, [null] or missing, [handle_auth] returns or
    raises, and either way: it never touches the registry; it writes at
    most one record, and only to the connecting socket; and it leaves the
    accounts as they were or adds one account under a username that was
    free. *)
Theorem handle_auth_footprint (env : environment) (sock : socket)
        (first_read : recv_result) (st : state) :
  plain_handshake env first_read ->
  exists st',
    final_state (handle_auth env sock first_read st) = Some st' /\
    active_clients st' = active_clients st /\
    (exists evs, log st' = log st ++ evs /\
                 (evs = [] \/ exists p ok, evs = [Send sock p ok])) /\
    (users st' = users st \/
     exists u p, Database.has_username u (users st) = false /\
                 users st' = users st ++ [(u, p)]).
Proof.
  intros Hplain.
  destruct (plain_handshake_runs env sock first_read st Hplain) as [st' Hrun].
  exists st'. split; [exact Hrun|].
  exact (handle_auth_footprint_any env sock first_read st st' Hrun).
Qed.

Lemma handle_auth_footprint_witness :
  plain_handshake calm (Recv (credentials_line "login" "alice" "pw1")) /\
  exists st',
    final_state (handle_auth calm 7
                   (Recv (credentials_line "login" "alice" "pw1"))
                   alice_registered) = Some st' /\
    active_clients st' = active_clients alice_registered /\
    (exists evs, log st' = log alice_registered ++ evs /\
                 (evs = [] \/ exists p ok, evs = [Send 7 p ok])) /\
    (users st' = users alice_registered \/
     exists u p, Database.has_username u (users alice_registered) = false /\
                 users st' = users alice_registered ++ [(u, p)]).
Proof.
  assert (H : plain_handshake calm
                (Recv (credentials_line "login" "alice" "pw1"))).
  { intros raw creds Hraw. injection Hraw as <-.
    intros Hload. vm_compute in Hload. injection Hload as <-.
    split; reflexivity. }
  split; [exact H|].
  exact (handle_auth_footprint calm 7
           (Recv (credentials_line "login" "alice" "pw1"))
           alice_registered H).
Defined.

(** X5.  A first read on which [json.loads], applied to the stripped
    text, raises [JSONDecodeError], or which is a dict whose ["action"] is
    neither ["register"] nor ["login"] (or is missing), gets one error
    record, ["Invalid JSON"] or ["Unknown action"]; [handle_auth] returns
    [None] and [client_handler] closes the socket.  Accounts and registry
    are untouched. *)
Theorem malformed_handshake_rejected (env : environment) (sock : socket)
        (raw message : string) (st : state) :
  Text.is_empty raw = false ->
  (json_loads env (Text.strip raw) = JSONDecodeError /\ message = "Invalid JSON") \/
  (exists creds,
      json_loads env (Text.strip raw) = Loaded (JObj creds) /\
      str_eq (Dict.get "action" creds) "register" = false /\
      str_eq (Dict.get "action" creds) "login" = false /\
      message = "Unknown action") ->
  let sent := negb (sendall_raises env (log st) sock) in
  let st1 := mkState (users st) (active_clients st)
                     (log st ++ [Send sock (status_error message) sent]) in
  handle_auth env sock (Recv raw) st =
    (if sent then Done None st1 else Raised st1) /\
  client_handler env sock (Recv raw) st =
    (if sent
     then Done tt (mkState (users st) (active_clients st)
                           (log st1 ++ [Close sock]))
     else Raised st1).
Proof.
  intros Hraw Hcase sent st1.
  assert (Hauth : handle_auth env sock (Recv raw) st =
                    (if sent then Done None st1 else Raised st1)).
  { subst sent st1. unfold handle_auth. rewrite Hraw.
    destruct Hcase as [[Hload ->] | (creds & Hload & Hreg & Hlogin & ->)];
      rewrite Hload; [|rewrite Hreg, Hlogin];
      unfold sendall; run;
      destruct (sendall_raises env (log st) sock); reflexivity. }
  split; [exact Hauth|].
  unfold client_handler, bind. rewrite Hauth. destruct sent; reflexivity.
Qed.

Lemma malformed_handshake_rejected_witness :
  handle_auth calm 5 (Recv "{oops") (initial_state []) =
    Done None (mkState Database.default_users []
                       [Send 5 (status_error "Invalid JSON") true]) /\
  client_handler calm 5 (Recv "{oops") (initial_state []) =
    Done tt (mkState Database.default_users []
                     [Send 5 (status_error "Invalid JSON") true; Close 5]).
Proof.
  exact (malformed_handshake_rejected calm 5 "{oops" "Invalid JSON"
           (initial_state []) eq_refl (or_introl (conj eq_refl eq_refl))).
Defined.

(** What [json.loads] raises besides [JSONDecodeError] is not caught: it
    leaves [handle_auth] before anything is written, and in the reader
    loop it reaches the bare [except]. *)
Lemma reader_error_leaves_handle_auth (env : environment) (sock : socket)
      (raw : string) (st : state) :
  Text.is_empty raw = false ->
  json_loads env (Text.strip raw) = LoadsRaises ->
  handle_auth env sock (Recv raw) st = Raised st /\
  client_handler env sock (Recv raw) st = Raised st.
Proof.
  intros Hraw Hload.
  assert (Hauth : handle_auth env sock (Recv raw) st = Raised st).
  { unfold handle_auth. now rewrite Hraw, Hload. }
  split; [exact Hauth|].
  unfold client_handler, bind. now rewrite Hauth.
Qed.

Lemma reader_error_line_raises (env : environment) (username line : string)
      (st : state) :
  Text.is_empty (Text.strip line) = false ->
  json_loads env line = LoadsRaises ->
  process_line env username line st = Raised st.
Proof. intros Hne Hload. unfold process_line. now rewrite Hne, Hload. Qed.

(** [strip] removes the no-break space in front of a handshake. *)
Example login_after_no_break_space :
  handle_auth calm 1
      (Recv (String (ascii_of_nat 160) (credentials_line "login" "yosif" "1010")))
      (initial_state []) =
    Done (Some "yosif")
         (mkState Database.default_users [] [Send 1 status_success true]).
Proof. reflexivity. Qed.

(** X6.  A first read that is JSON but not a dict (a list, a number, a
    string, [null]) makes [creds.get] raise: the exception leaves
    [handle_auth] and [client_handler] before anything is written, so the
    peer gets no reply, the socket is not closed, and nothing changes. *)
Theorem non_dict_handshake_raises (env : environment) (sock : socket)
        (raw : string) (v : json) (st : state) :
  Text.is_empty raw = false ->
  json_loads env (Text.strip raw) = Loaded v ->
  (forall creds, v <> JObj creds) ->
  handle_auth env sock (Recv raw) st = Raised st /\
  client_handler env sock (Recv raw) st = Raised st.
Proof.
  intros Hraw Hload Hv.
  assert (Hauth : handle_auth env sock (Recv raw) st = Raised st).
  { unfold handle_auth. rewrite Hraw, Hload.
    destruct v; try reflexivity. now destruct (Hv items). }
  split; [exact Hauth|].
  unfold client_handler, bind. now rewrite Hauth.
Qed.

Lemma non_dict_handshake_raises_witness :
  handle_auth calm 5 (Recv "[1, 2]") (initial_state []) =
    Raised (initial_state []) /\
  client_handler calm 5 (Recv "[1, 2]") (initial_state []) =
    Raised (initial_state []).
Proof.
  apply (non_dict_handshake_raises calm 5 "[1, 2]" (JArr [JInt 1; JInt 2])
           (initial_state []) eq_refl eq_refl).
  intros creds E. discriminate E.
Defined.

(** X7.  A [register] or [login] handshake whose username or password is
    missing or [null] (the other, if present, being text) is refused and
    changes nothing.  The register reply then reads ["Username already
    exists"] even when the username is free: the [NOT NULL] violation is
    caught as the same [IntegrityError]. *)
Theorem handshake_with_null_field (env : environment) (sock : socket)
        (raw : string) (creds : list (string * json))
        (a b : Database.sqlval) (is_register : bool) (st : state) :
  Text.is_empty raw = false ->
  json_loads env (Text.strip raw) = Loaded (JObj creds) ->
  str_eq (Dict.get "action" creds)
         (if is_register then "register" else "login") = true ->
  Database.bind_param (Dict.get "username" creds) = Some a ->
  Database.bind_param (Dict.get "password" creds) = Some b ->
  a = Database.SqlNull \/ b = Database.SqlNull ->
  let reply := status_error (if is_register then "Username already exists"
                             else "Invalid credentials") in
  let sent := negb (sendall_raises env (log st) sock) in
  let st1 := mkState (users st) (active_clients st)
                     (log st ++ [Send sock reply sent]) in
  handle_auth env sock (Recv raw) st =
    (if sent then Done None st1 else Raised st1).
Proof.
  intros Hraw Hload Haction Ha Hb Hnull reply sent st1.
  subst reply sent st1. unfold handle_auth. rewrite Hraw, Hload.
  destruct is_register.
  - rewrite Haction. unfold Database.register_user. rewrite Ha, Hb.
    destruct Hnull as [-> | ->]; [|destruct a]; unfold sendall; run;
      destruct (sendall_raises env (log st) sock); reflexivity.
  - rewrite (str_eq_true _ _ Haction). cbn [str_eq String.eqb Ascii.eqb Bool.eqb].
    unfold Database.validate_user. rewrite Ha, Hb.
    destruct Hnull as [-> | ->]; [|destruct a]; unfold sendall; run;
      destruct (sendall_raises env (log st) sock); reflexivity.
Qed.

Lemma handshake_with_null_field_witness :
  handle_auth calm 5 (Recv register_without_password) (initial_state []) =
    Done None (mkState Database.default_users []
                 [Send 5 (status_error "Username already exists") true]).
Proof.
  exact (handshake_with_null_field calm 5 register_without_password
           [("action", JStr "register"); ("username", JStr "carol")]
           (Database.SqlText "carol") Database.SqlNull true (initial_state [])
           eq_refl eq_refl eq_refl eq_refl eq_refl (or_intror eq_refl)).
Defined.

(** ** Joining the registry *)

Lemma handle_auth_returns_account (env : environment) (sock : socket)
      (first_read : recv_result) (u : string) (st st1 : state) :
  handle_auth env sock first_read st = Done (Some u) st1 ->
  users st1 = users st /\ Database.has_username u (users st) = true.
Proof.
  unfold handle_auth, Database.register_user, Database.validate_user, sendall.
  run.
  repeat break_match_eq; simpl; intros H; try discriminate.
  injection H as <- <-. simpl. split; [reflexivity|].
  match goal with
  | E : Database.bind_param (Some (JStr _)) = Some _ |- _ =>
      simpl in E; injection E as ->
  end.
  match goal with
  | E : existsb _ (users st) = true |- _ =>
      exact (valid_pair_has_username _ _ _ E)
  end.
Qed.

Lemma handle_auth_login (env : environment) (sock : socket) (raw : string)
      (creds : list (string * json)) (u p : string) (st : state) :
  Text.is_empty raw = false ->
  json_loads env (Text.strip raw) = Loaded (JObj creds) ->
  str_eq (Dict.get "action" creds) "login" = true ->
  Dict.get "username" creds = Some (JStr u) ->
  Dict.get "password" creds = Some (JStr p) ->
  valid_pair u p (users st) = true ->
  handle_auth env sock (Recv raw) st =
    (if sendall_raises env (log st) sock
     then Raised (mkState (users st) (active_clients st)
                          (log st ++ [Send sock status_success false]))
     else Done (Some u)
               (mkState (users st) (active_clients st)
                        (log st ++ [Send sock status_success true]))).
Proof.
  intros Hraw Hload Haction Huser Hpwd Hvalid.
  unfold handle_auth. rewrite Hraw, Hload, (str_eq_true _ _ Haction).
  cbn [str_eq String.eqb Ascii.eqb Bool.eqb]. rewrite Huser, Hpwd.
  unfold Database.validate_user, sendall. run.
  unfold valid_pair in Hvalid. rewrite Hvalid.
  destruct (sendall_raises env (log st) sock); reflexivity.
Qed.

Lemma broadcast_user_list_calm (env : environment) (st : state) :
  never_raises env ->
  broadcast_user_list env st =
    Done tt (mkState (users st) (active_clients st)
               (log st ++ UserListCast (usernames_of (active_clients st))
                  :: map (fun e => Send (snd e)
                            (user_list_record
                               (usernames_of (active_clients st))) true)
                         (active_clients st))).
Proof.
  intros Hcalm. unfold broadcast_user_list.
  rewrite broadcast_user_list_rec_S, (loop_calm env _ _ Hcalm).
  cbn [users active_clients log]. now rewrite <- app_assoc.
Qed.

(** X8.  A login under the empty username, when the accounts hold it:
    the success record is written, and then [client_handler] closes the
    socket without registering the session, because [if not username]
    cannot tell the empty string from [None]. *)
Theorem empty_username_login_is_dropped (env : environment) (sock : socket)
        (raw : string) (creds : list (string * json)) (p : string)
        (st : state) :
  Text.is_empty raw = false ->
  json_loads env (Text.strip raw) = Loaded (JObj creds) ->
  str_eq (Dict.get "action" creds) "login" = true ->
  Dict.get "username" creds = Some (JStr "") ->
  Dict.get "password" creds = Some (JStr p) ->
  valid_pair "" p (users st) = true ->
  sendall_raises env (log st) sock = false ->
  client_handler env sock (Recv raw) st =
    Done tt (mkState (users st) (active_clients st)
                     (log st ++ [Send sock status_success true; Close sock])).
Proof.
  intros Hraw Hload Haction Huser Hpwd Hvalid Hsend.
  unfold client_handler. unfold bind at 1.
  rewrite (handle_auth_login env sock raw creds "" p st
             Hraw Hload Haction Huser Hpwd Hvalid), Hsend.
  run. now rewrite <- app_assoc.
Qed.

Lemma empty_username_login_is_dropped_witness :
  client_handler calm 1 (Recv (credentials_line "login" "" "pw"))
                 (mkState [("", "pw")] [] []) =
    Done tt (mkState [("", "pw")] [] [Send 1 status_success true; Close 1]).
Proof.
  exact (empty_username_login_is_dropped calm 1
           (credentials_line "login" "" "pw")
           [("action", JStr "login"); ("username", JStr "");
            ("password", JStr "pw")]
           "pw" (mkState [("", "pw")] [] [])
           eq_refl eq_refl eq_refl eq_refl eq_refl eq_refl eq_refl).
Defined.

(** X9.  A valid login under a non-empty username, on a network where no
    write raises: the success record goes to the new socket, the entry is
    appended at the end of the registry, and every session, the new one
    last, is sent the listing of all usernames in registry order. *)
Theorem login_joins_and_announces (env : environment) (sock : socket)
        (raw : string) (creds : list (string * json)) (u p : string)
        (st : state) :
  never_raises env ->
  Text.is_empty raw = false ->
  json_loads env (Text.strip raw) = Loaded (JObj creds) ->
  str_eq (Dict.get "action" creds) "login" = true ->
  Dict.get "username" creds = Some (JStr u) ->
  Dict.get "password" creds = Some (JStr p) ->
  valid_pair u p (users st) = true ->
  Text.is_empty u = false ->
  let reg := active_clients st ++ [(u, sock)] in
  client_handler env sock (Recv raw) st =
    Done tt
      (mkState (users st) reg
         (log st ++ Send sock status_success true
            :: UserListCast (usernames_of reg)
            :: map (fun e => Send (snd e) (user_list_record (usernames_of reg))
                                  true) reg)).
Proof.
  intros Hcalm Hraw Hload Haction Huser Hpwd Hvalid Hu reg.
  unfold client_handler. unfold bind at 1.
  rewrite (handle_auth_login env sock raw creds u p st
             Hraw Hload Haction Huser Hpwd Hvalid), Hcalm, Hu.
  run. rewrite (broadcast_user_list_calm env _ Hcalm).
  cbn [users active_clients log]. subst reg. now rewrite <- app_assoc.
Qed.

Lemma login_joins_and_announces_witness :
  client_handler calm 3 (Recv (credentials_line "login" "mohamed" "1010"))
                 one_client =
    Done tt
      (mkState Database.default_users [("yosif", 1); ("mohamed", 3)]
         [Send 3 status_success true;
          UserListCast ["yosif"; "mohamed"];
          Send 1 (user_list_record ["yosif"; "mohamed"]) true;
          Send 3 (user_list_record ["yosif"; "mohamed"]) true]).
Proof.
  exact (login_joins_and_announces calm 3
           (credentials_line "login" "mohamed" "1010")
           [("action", JStr "login"); ("username", JStr "mohamed");
            ("password", JStr "1010")]
           "mohamed" "1010" one_client
           (fun _ _ => eq_refl)
           eq_refl eq_refl eq_refl eq_refl eq_refl eq_refl eq_refl).
Defined.

Lemma handle_auth_accounts_grow (env : environment) (sock : socket)
      (first_read : recv_result) (st st' : state) :
  final_state (handle_auth env sock first_read st) = Some st' ->
  exists more, users st' = users st ++ more.
Proof.
  unfold handle_auth, Database.register_user, Database.validate_user, sendall.
  run.
  repeat break_match_eq; simpl; intros H; try discriminate;
    injection H as <-; simpl;
    first [ exists []; now rewrite app_nil_r | eexists; reflexivity ].
Qed.

Lemma registry_sound_grow (st st' : state) (more : list (string * string)) :
  registry_sound st ->
  active_clients st' = active_clients st ->
  users st' = users st ++ more ->
  registry_sound st'.
Proof.
  intros Hs Hreg Hus u s Hin. rewrite Hreg in Hin.
  destruct (Hs u s Hin) as [Hne Hacc]. split; [assumption|].
  rewrite Hus, has_username_app, Hacc. reflexivity.
Qed.

Lemma client_handler_sound (env : environment)
      (sock : socket) (first_read : recv_result) (st st' : state) :
  registry_sound st ->
  final_state (client_handler env sock first_read st) = Some st' ->
  registry_sound st'.
Proof.
  intros Hsound. unfold client_handler. unfold bind at 1.
  pose proof (handle_auth_keeps_registry env sock first_read st) as Hreg.
  pose proof (handle_auth_accounts_grow env sock first_read st) as Hgrow.
  pose proof (fun u st1 =>
                handle_auth_returns_account env sock first_read u st st1)
    as Hacc.
  destruct (handle_auth env sock first_read st) as [[u|] st1 | st1 |];
    simpl in Hgrow; try discriminate.
  - destruct (Hgrow st1 eq_refl) as [more Hmore].
    destruct (Text.is_empty u) eqn:Hu.
    + run. intros H. injection H as <-.
      now apply (registry_sound_grow st _ more).
    + destruct (Hacc u st1 eq_refl) as [Hus Hhas].
      run.
      destruct (broadcast_user_list_casts env
                  (mkState (users st1) (active_clients st1 ++ [(u, sock)])
                           (log st1)))
        as (evs & reg' & Hrun & evs0 & -> & Htr).
      cbn [users active_clients log] in *. rewrite Hrun.
      simpl. intros H. injection H as <-.
      apply fan_trace_purge in Htr.
      intros v s Hin. cbn [users active_clients] in *.
      rewrite Htr in Hin. apply purge_incl in Hin.
      rewrite Hreg, Hus in *. apply in_app_or in Hin.
      destruct Hin as [Hin | [E | []]].
      * exact (Hsound v s Hin).
      * injection E as <- <-. now split.
  - destruct (Hgrow st1 eq_refl) as [more Hmore].
    run. intros H. injection H as <-.
    now apply (registry_sound_grow st _ more).
  - destruct (Hgrow st1 eq_refl) as [more Hmore].
    simpl. intros H. injection H as <-.
    now apply (registry_sound_grow st _ more).
Qed.

(** ** The reader loop, for every sequence of reads *)

Lemma fan_trace_no_close (p : json) (snap reg : list (string * socket))
      (evs : list event) (reg' : list (string * socket)) :
  fan_trace p snap reg evs reg' -> existsb is_close evs = false.
Proof.
  induction 1 as [q r | q u s rest r evs0 r' _ IH
                 | q u s rest r evs1 r1 evs2 r' _ IH1 _ IH2]; simpl; auto.
  now rewrite existsb_app, IH1, IH2.
Qed.

Lemma purge_no_key (gone : list string) (reg : list (string * socket))
      (u : string) (s : socket) :
  mem u gone = true -> ~ In (u, s) (purge gone reg).
Proof.
  intros Hmem Hin. apply filter_In in Hin. destruct Hin as [_ H].
  simpl in H. now rewrite Hmem in H.
Qed.

Lemma relayed_nil (username : string) (reg : list (string * socket)) :
  relayed username reg [] reg.
Proof.
  repeat split; simpl; [now rewrite purge_nil | constructor].
Qed.

Lemma relayed_app (username : string) (reg reg1 reg2 : list (string * socket))
      (evs1 evs2 : list event) :
  relayed username reg evs1 reg1 ->
  relayed username reg1 evs2 reg2 ->
  relayed username reg (evs1 ++ evs2) reg2.
Proof.
  intros (E1 & C1 & D1) (E2 & C2 & D2). repeat split.
  - now rewrite removed_app, purge_app, <- E1.
  - now rewrite existsb_app, C1, C2.
  - rewrite chat_deliveries_app. apply Forall_app. now split.
Qed.

Lemma relayed_chat (username : string) (content : json) (time : string)
      (reg : list (string * socket)) (evs : list event)
      (reg' : list (string * socket)) :
  fan_trace (message_record username content time) reg reg evs reg' ->
  relayed username reg evs reg'.
Proof.
  intros H. repeat split.
  - exact (fan_trace_purge _ _ _ _ _ H).
  - exact (fan_trace_no_close _ _ _ _ _ H).
  - rewrite (fan_trace_chat _ _ _ _ _ H). cbn [is_chat message_record].
    change (str_eq _ "message") with true. cbv iota.
    apply Forall_forall. intros d Hd. apply in_map_iff in Hd.
    destruct Hd as [e [<- _]]. simpl. now exists content, time.
Qed.

Lemma relayed_removal (username : string) (reg : list (string * socket))
      (evs : list event) (reg' : list (string * socket)) :
  cast_trace (without username reg) evs reg' ->
  relayed username reg (RemoveClient username :: evs) reg'.
Proof.
  intros (evs0 & -> & H). repeat split.
  - simpl. rewrite purge_cons. exact (fan_trace_purge _ _ _ _ _ H).
  - simpl. exact (fan_trace_no_close _ _ _ _ _ H).
  - simpl. rewrite (fan_trace_chat _ _ _ _ _ H). constructor.
Qed.

Section ReaderTrace.

Variable env : environment.
Variable username : string.

Lemma relays_idle {A} (m : M A) (st : state) :
  (exists a, m st = Done a st) \/ m st = Raised st -> relays username m st.
Proof.
  intros H. exists [], (active_clients st). split; [|apply relayed_nil].
  rewrite app_nil_r. destruct st. exact H.
Qed.

Lemma process_line_relays (line : string) (st : state) :
  relays username (process_line env username line) st.
Proof.
  unfold process_line.
  destruct (Text.is_empty (Text.strip line));
    [apply relays_idle; left; now exists tt|].
  destruct (json_loads env line) as [v| |];
    [|apply relays_idle; left; now exists tt|apply relays_idle; now right].
  destruct v; try (apply relays_idle; now right).
  destruct (str_eq (Dict.get "type" items) "message");
    [|apply relays_idle; left; now exists tt].
  destruct (Dict.get "content" items) as [c|];
    [|apply relays_idle; now right].
  unfold bind, get_state.
  destruct (broadcast_message_fans env
              (message_record username c
                 (strftime_HM (datetime_now env (log st)))) st)
    as (evs & reg' & Hrun & Htr).
  exists evs, reg'. split; [left; now exists tt|].
  now apply relayed_chat in Htr.
Qed.

Lemma relays_bind {A B} (m : M A) (k : A -> M B) (st : state) :
  relays username m st ->
  (forall a st1, m st = Done a st1 -> relays username (k a) st1) ->
  relays username (bind m k) st.
Proof.
  intros (evs & reg' & [[a Hm] | Hm] & Hrel) Hk; unfold bind.
  - destruct (Hk a _ Hm) as (evs2 & reg2 & Hrun & Hrel2).
    cbn [users active_clients log] in *.
    exists (evs ++ evs2), reg2. rewrite Hm, app_assoc.
    split; [exact Hrun|]. exact (relayed_app _ _ _ _ _ _ Hrel Hrel2).
  - exists evs, reg'. rewrite Hm. split; [now right | assumption].
Qed.

Lemma drain_rec_relays (fuel : nat) :
  forall buffer st,
    String.length buffer < fuel ->
    relays username (drain_rec env fuel username buffer) st.
Proof.
  induction fuel as [|f IH]; intros buffer st Hlen; [lia|].
  cbn [drain_rec].
  destruct (Text.split1 buffer) as [[line rest]|] eqn:Hs.
  - apply split1_shorter in Hs. apply relays_bind.
    + apply process_line_relays.
    + intros _ st1 _. apply IH. lia.
  - apply relays_idle. left. now exists buffer.
Qed.

(** The whole loop: it returns, what it did is [relayed], and when it is
    out of its loop the last thing it did was to remove its username. *)
Lemma listen_loop_relays (reads : list recv_result) :
  forall buffer st,
    exists r evs reg',
      listen_loop env username reads buffer st =
        Done r (mkState (users st) reg' (log st ++ evs)) /\
      relayed username (active_clients st) evs reg' /\
      (r = Finished -> mem username (removed evs) = true).
Proof.
  induction reads as [|r reads IH]; intros buffer st.
  - exists (Reading buffer), [], (active_clients st).
    rewrite app_nil_r. destruct st.
    split; [reflexivity|]. split; [apply relayed_nil | discriminate].
  - cbn [listen_loop]. unfold bind at 1. unfold try_except.
    assert (Hfin : forall evs1 reg1,
               relayed username (active_clients st) evs1 reg1 ->
               exists evs reg',
                 (remove_client env username ;; ret Finished)
                   (mkState (users st) reg1 (log st ++ evs1)) =
                   Done Finished (mkState (users st) reg' (log st ++ evs)) /\
                 relayed username (active_clients st) evs reg' /\
                 mem username (removed evs) = true).
    { intros evs1 reg1 Hrel. unfold bind, ret.
      destruct (remove_client_runs env username
                  (mkState (users st) reg1 (log st ++ evs1)))
        as (evs2 & reg2 & Hrun & Htr).
      cbn [users active_clients log] in *. rewrite Hrun.
      exists (evs1 ++ RemoveClient username :: evs2), reg2.
      rewrite app_assoc. split; [reflexivity|]. split.
      - apply (relayed_app _ _ reg1); [assumption|].
        now apply relayed_removal.
      - rewrite removed_app. unfold mem. rewrite existsb_app. simpl.
        rewrite String.eqb_refl. now rewrite orb_true_r. }
    assert (Hnow : exists evs reg',
               (remove_client env username ;; ret Finished) st =
                 Done Finished (mkState (users st) reg' (log st ++ evs)) /\
               relayed username (active_clients st) evs reg' /\
               mem username (removed evs) = true).
    { destruct (Hfin [] (active_clients st) (relayed_nil _ _))
        as (evs & reg' & Hrun & Hrel & Hmem).
      rewrite app_nil_r in Hrun. destruct st. now exists evs, reg'. }
    destruct r as [data|]; [destruct (Text.is_empty data)|].
    + unfold raise. cbv beta iota.
      destruct Hnow as (evs & reg' & Hrun & Hrel & Hmem). rewrite Hrun.
      now exists Finished, evs, reg'.
    + unfold bind at 1. unfold drain.
      destruct (drain_rec_relays (S (String.length (buffer ++ data)))
                  (buffer ++ data) st (Nat.lt_succ_diag_r _))
        as (evs1 & reg1 & [[b Hd] | Hd] & Hrel1); rewrite Hd.
      * unfold ret. cbv beta iota.
        destruct (IH b (mkState (users st) reg1 (log st ++ evs1)))
          as (r0 & evs2 & reg2 & Hrun & Hrel2 & Hmem).
        cbn [users active_clients log] in *. rewrite Hrun.
        exists r0, (evs1 ++ evs2), reg2. rewrite app_assoc.
        split; [reflexivity|]. split.
        -- exact (relayed_app _ _ _ _ _ _ Hrel1 Hrel2).
        -- intros E. rewrite removed_app. unfold mem. rewrite existsb_app.
           unfold mem in Hmem. now rewrite (Hmem E), orb_true_r.
      * destruct (Hfin evs1 reg1 Hrel1) as (evs & reg' & Hrun & Hrel & Hmem).
        rewrite Hrun. now exists Finished, evs, reg'.
    + unfold raise. cbv beta iota.
      destruct Hnow as (evs & reg' & Hrun & Hrel & Hmem). rewrite Hrun.
      now exists Finished, evs, reg'.
Qed.

End ReaderTrace.

(** X11.  For every sequence of reads the reader thread returns: nothing
    escapes its bare [except].  It never touches the accounts, and it
    never adds to the registry: the registry it leaves is the one it
    found, less the entries of the usernames removed on the way. *)
Theorem reader_returns_and_only_removes (env : environment) (sock : socket)
        (username : string) (reads : list recv_result) (st : state) :
  exists r st',
    listen_for_messages env sock username reads st = Done r st' /\
    users st' = users st /\
    active_clients st' =
      purge (removed (events_since st st')) (active_clients st) /\
    incl (active_clients st') (active_clients st).
Proof.
  destruct (listen_loop_relays env username reads "" st)
    as (r & evs & reg' & Hrun & (Hpurge & _ & _) & _).
  exists r. eexists. split; [exact Hrun|].
  rewrite events_since_app. cbn [users active_clients].
  split; [reflexivity|]. split; [exact Hpurge|].
  rewrite Hpurge. apply purge_incl.
Qed.

(** X12.  The reader thread never closes a socket, whatever it reads: not
    when the peer disconnects, not when a read raises, not when a line
    ends the session.  The socket of a session that is over stays open. *)
Theorem reader_never_closes_socket (env : environment) (sock : socket)
        (username : string) (reads : list recv_result) (st : state) :
  exists r st',
    listen_for_messages env sock username reads st = Done r st' /\
    forall s, ~ In (Close s) (events_since st st').
Proof.
  destruct (listen_loop_relays env username reads "" st)
    as (r & evs & reg' & Hrun & (_ & Hclose & _) & _).
  exists r. eexists. split; [exact Hrun|].
  rewrite events_since_app. intros s Hin.
  assert (H : existsb is_close evs = true).
  { apply existsb_exists. now exists (Close s). }
  congruence.
Qed.

(** X13.  Whatever the session of [username] reads, every chat record
    written to any sink on its behalf names [username] as the sender: a
    client cannot have a record relayed under another name. *)
Theorem reader_never_forges_sender (env : environment) (sock : socket)
        (username : string) (reads : list recv_result) (st : state) :
  exists r st',
    listen_for_messages env sock username reads st = Done r st' /\
    forall s p,
      In (s, p) (chat_deliveries (events_since st st')) ->
      exists content time, p = message_record username content time.
Proof.
  destruct (listen_loop_relays env username reads "" st)
    as (r & evs & reg' & Hrun & (_ & _ & Hsent) & _).
  exists r. eexists. split; [exact Hrun|].
  rewrite events_since_app. intros s p Hin.
  rewrite Forall_forall in Hsent. exact (Hsent (s, p) Hin).
Qed.

(** X14.  When the reader thread is out of its loop, no entry of the
    registry is keyed by its username any more, and the removal of that
    username is in the log. *)
Theorem finished_reader_is_deregistered (env : environment) (sock : socket)
        (username : string) (reads : list recv_result) (st st' : state) :
  listen_for_messages env sock username reads st = Done Finished st' ->
  In (RemoveClient username) (events_since st st') /\
  forall s, ~ In (username, s) (active_clients st').
Proof.
  intros Hrun.
  destruct (listen_loop_relays env username reads "" st)
    as (r & evs & reg' & Hrun' & (Hpurge & _ & _) & Hmem).
  unfold listen_for_messages in Hrun. rewrite Hrun' in Hrun.
  injection Hrun as -> <-. specialize (Hmem eq_refl).
  rewrite events_since_app. cbn [active_clients]. split.
  - clear - Hmem. induction evs as [|e evs IH]; simpl in *; [discriminate|].
    destruct e as [| |u|]; auto. simpl in Hmem.
    destruct (String.eqb username u) eqn:E.
    + apply String.eqb_eq in E. subst. now left.
    + right. now apply IH.
  - intros s. rewrite Hpurge. now apply purge_no_key.
Qed.

Lemma finished_reader_is_deregistered_witness :
  In (RemoveClient "yosif")
     (events_since four_clients
        (mkState Database.default_users [("mohamed", 2); ("ali", 4)]
           [RemoveClient "yosif"; UserListCast ["mohamed"; "ali"];
            Send 2 (user_list_record ["mohamed"; "ali"]) true;
            Send 4 (user_list_record ["mohamed"; "ali"]) true])) /\
  forall s,
    ~ In ("yosif", s)
         (active_clients
            (mkState Database.default_users [("mohamed", 2); ("ali", 4)]
               [RemoveClient "yosif"; UserListCast ["mohamed"; "ali"];
                Send 2 (user_list_record ["mohamed"; "ali"]) true;
                Send 4 (user_list_record ["mohamed"; "ali"]) true])).
Proof.
  exact (finished_reader_is_deregistered calm 1 "yosif" [Recv ""]
           four_clients _ eq_refl).
Defined.

(** ** Framing *)

Lemma append_assoc (a b c : string) :
  ((a ++ b) ++ c)%string = (a ++ (b ++ c))%string.
Proof. induction a as [|x a IH]; simpl; [reflexivity | now rewrite IH]. Qed.

Lemma is_empty_append (a b : string) :
  Text.is_empty a = false -> Text.is_empty (a ++ b) = false.
Proof. destruct a; [discriminate | reflexivity]. Qed.

Lemma split1_append (x y line rest : string) :
  Text.split1 x = Some (line, rest) ->
  Text.split1 (x ++ y) = Some (line, (rest ++ y)%string).
Proof.
  revert line. induction x as [|c x IH]; simpl; intros line H; [discriminate|].
  destruct (Ascii.eqb c Text.LF).
  - now injection H as <- <-.
  - destruct (Text.split1 x) as [[l r]|]; [|discriminate].
    injection H as <- <-. now rewrite (IH l eq_refl).
Qed.

Section Framing.

Variable env : environment.
Variable username : string.

(** The budget of the inner loop does not matter once it exceeds the
    length of the buffer. *)
Lemma drain_rec_fuel (f : nat) :
  forall g buffer st,
    String.length buffer < f -> String.length buffer < g ->
    drain_rec env f username buffer st = drain_rec env g username buffer st.
Proof.
  induction f as [|f IH]; intros g buffer st Hf Hg; [lia|].
  destruct g as [|g]; [lia|]. cbn [drain_rec].
  destruct (Text.split1 buffer) as [[line rest]|] eqn:Hs; [|reflexivity].
  apply split1_shorter in Hs. unfold bind.
  destruct (process_line env username line st); try reflexivity.
  apply IH; lia.
Qed.

Lemma drain_step (buffer line rest : string) (st : state) :
  Text.split1 buffer = Some (line, rest) ->
  drain env username buffer st =
    (process_line env username line ;; drain env username rest) st.
Proof.
  intros Hs. unfold drain at 1.
  change (drain_rec env (S (String.length buffer)) username buffer st)
    with (match Text.split1 buffer with
          | Some (l, r) =>
              process_line env username l ;;
              drain_rec env (String.length buffer) username r
          | None => ret buffer
          end st).
  rewrite Hs. apply split1_shorter in Hs. unfold bind.
  destruct (process_line env username line st); try reflexivity.
  unfold drain. apply drain_rec_fuel; lia.
Qed.

Lemma drain_idle (buffer : string) (st : state) :
  Text.split1 buffer = None -> drain env username buffer st = Done buffer st.
Proof. intros Hs. unfold drain. cbn [drain_rec]. now rewrite Hs. Qed.

(** Draining a buffer and then what follows it is draining both at once. *)
Lemma drain_append (n : nat) :
  forall x y st,
    String.length x < n ->
    drain env username (x ++ y) st =
      (b <- drain env username x ;; drain env username (b ++ y)) st.
Proof.
  induction n as [|n IH]; intros x y st Hlen; [lia|].
  destruct (Text.split1 x) as [[line rest]|] eqn:Hs.
  - rewrite (drain_step _ _ _ _ (split1_append _ y _ _ Hs)).
    unfold bind at 2. rewrite (drain_step _ _ _ _ Hs).
    apply split1_shorter in Hs. unfold bind at 1 2.
    destruct (process_line env username line st) as [[] st1 | st1 |];
      try reflexivity.
    rewrite (IH rest y st1) by lia. reflexivity.
  - unfold bind. now rewrite (drain_idle _ _ Hs).
Qed.

Lemma hang_up_finishes (st : state) :
  exists st', (remove_client env username ;; ret Finished) st = Done Finished st'.
Proof.
  unfold bind, ret.
  destruct (remove_client_runs env username st) as (evs & reg' & Hrun & _).
  rewrite Hrun. eexists. reflexivity.
Qed.

(** One turn of the outer loop on a read that brought data. *)
Lemma listen_loop_recv (data : string) (rest : list recv_result)
      (buffer : string) (st : state) :
  Text.is_empty data = false ->
  listen_loop env username (Recv data :: rest) buffer st =
    match drain env username (buffer ++ data) st with
    | Done b st' => listen_loop env username rest b st'
    | Raised st' => (remove_client env username ;; ret Finished) st'
    | Stuck => Stuck
    end.
Proof.
  intros Hdata. cbn [listen_loop]. rewrite Hdata.
  unfold bind at 1. unfold try_except. unfold bind at 1.
  destruct (drain env username (buffer ++ data) st) as [b st1 | st1 |];
    try reflexivity.
  destruct (hang_up_finishes st1) as [st2 E]. now rewrite E.
Qed.

(** One turn of the outer loop on end of stream or on a read that raised. *)
Lemma listen_loop_hang_up (r : recv_result) (rest : list recv_result)
      (buffer : string) (st : state) :
  r = Recv "" \/ r = RecvRaises ->
  listen_loop env username (r :: rest) buffer st =
    (remove_client env username ;; ret Finished) st.
Proof.
  intros [-> | ->]; cbn [listen_loop Text.is_empty];
    unfold bind at 1; unfold try_except, raise;
    destruct (hang_up_finishes st) as [st2 E]; now rewrite E.
Qed.

Lemma listen_loop_chunks (a b : string) (rest : list recv_result)
      (buffer : string) (st : state) :
  Text.is_empty a = false ->
  Text.is_empty b = false ->
  listen_loop env username (Recv a :: Recv b :: rest) buffer st =
    listen_loop env username (Recv (a ++ b) :: rest) buffer st.
Proof.
  intros Ha Hb.
  rewrite (listen_loop_recv a _ _ _ Ha).
  rewrite (listen_loop_recv (a ++ b) _ _ _ (is_empty_append a b Ha)).
  rewrite <- append_assoc.
  rewrite (drain_append (S (String.length (buffer ++ a))) (buffer ++ a) b st
             (Nat.lt_succ_diag_r _)).
  unfold bind at 2.
  destruct (drain env username (buffer ++ a) st) as [b0 st1 | st1 |];
    try reflexivity.
  now rewrite (listen_loop_recv b _ _ _ Hb).
Qed.

(** The loop on [r :: rest] is the loop on [r] alone, carried on with
    [rest] when the reader is still reading. *)
Lemma listen_loop_cons (r : recv_result) (rest : list recv_result)
      (buffer : string) (st : state) :
  listen_loop env username (r :: rest) buffer st =
    match listen_loop env username [r] buffer st with
    | Done (Reading b) st' => listen_loop env username rest b st'
    | o => o
    end.
Proof.
  assert (Hcases : (exists data, r = Recv data /\ Text.is_empty data = false)
                   \/ (r = Recv "" \/ r = RecvRaises)).
  { destruct r as [[|c data]|]; [right; now left | left | right; now right].
    now exists (String c data). }
  destruct Hcases as [(data & -> & Hdata) | Hup].
  - rewrite !(listen_loop_recv data _ _ _ Hdata).
    destruct (drain env username (buffer ++ data) st) as [b st1 | st1 |];
      try reflexivity.
    destruct (hang_up_finishes st1) as [st2 E]. now rewrite E.
  - rewrite !(listen_loop_hang_up r _ _ _ Hup).
    destruct (hang_up_finishes st) as [st2 E]. now rewrite E.
Qed.

Lemma listen_loop_prefix (pre reads reads' : list recv_result) :
  (forall buffer st,
      listen_loop env username reads buffer st =
        listen_loop env username reads' buffer st) ->
  forall buffer st,
    listen_loop env username (pre ++ reads) buffer st =
      listen_loop env username (pre ++ reads') buffer st.
Proof.
  intros Hsame. induction pre as [|r pre IH]; intros buffer st; [apply Hsame|].
  cbn [app].
  rewrite (listen_loop_cons r (pre ++ reads)), (listen_loop_cons r (pre ++ reads')).
  destruct (listen_loop env username [r] buffer st) as [[b|] st1 | st1 |];
    try reflexivity.
  apply IH.
Qed.

End Framing.

(** X15.  How the text of a connection is cut into reads does not matter,
    as long as each read decodes on its own: anywhere in the sequence of
    reads, two consecutive reads that give non-empty text have the same
    effect, event for event, as the single read of the concatenated text.
    (Each read is decoded by itself: one that stops inside a multi-byte
    character does not decode, which is a read that raises and ends the
    session.) *)
Theorem reads_may_be_chunked (env : environment) (sock : socket)
        (username a b : string) (before after : list recv_result)
        (st : state) :
  Text.is_empty a = false ->
  Text.is_empty b = false ->
  listen_for_messages env sock username
                      (before ++ Recv a :: Recv b :: after) st =
    listen_for_messages env sock username
                        (before ++ Recv (a ++ b) :: after) st.
Proof.
  intros Ha Hb. unfold listen_for_messages.
  apply listen_loop_prefix. intros buffer st0.
  now apply listen_loop_chunks.
Qed.

Lemma reads_may_be_chunked_witness :
  listen_for_messages calm 1 "yosif"
      ([] ++ [Recv "{"; Recv (chat_line_tail "hi" ++ Text.newline)])
      two_clients =
    listen_for_messages calm 1 "yosif"
      ([] ++ [Recv ("{" ++ (chat_line_tail "hi" ++ Text.newline))])
      two_clients.
Proof.
  exact (reads_may_be_chunked calm 1 "yosif" "{"
           (chat_line_tail "hi" ++ Text.newline) [] [] two_clients
           eq_refl eq_refl).
Defined.



Lemma blank_line_dropped (env : environment) (username line : string)
      (st : state) :
  Text.is_empty (Text.strip line) = true ->
  process_line env username line st = Done tt st.
Proof. intros H. unfold process_line. now rewrite H. Qed.

Lemma chat_without_content_raises (env : environment) (username line : string)
      (pkt : list (string * json)) (st : state) :
  Text.is_empty (Text.strip line) = false ->
  json_loads env line = Loaded (JObj pkt) ->
  str_eq (Dict.get "type" pkt) "message" = true ->
  Dict.get "content" pkt = None ->
  process_line env username line st = Raised st.
Proof.
  intros Hne Hload Htype Hc. unfold process_line.
  now rewrite Hne, Hload, Htype, Hc.
Qed.

(** X17.  A line that is JSON but not a dict, or a chat dict without
    ["content"], has exactly the effect of the peer disconnecting at that
    point: whatever follows it in the same read and in later reads is
    ignored, and the session ends as on end of stream. *)
Theorem raising_line_acts_as_disconnect (env : environment) (sock : socket)
        (username line more : string) (v : json) (rest : list recv_result)
        (st : state) :
  Text.split1 line = None ->
  Text.is_empty (Text.strip line) = false ->
  json_loads env line = Loaded v ->
  (forall pkt, v <> JObj pkt) \/
  (exists pkt, v = JObj pkt /\
               str_eq (Dict.get "type" pkt) "message" = true /\
               Dict.get "content" pkt = None) ->
  listen_for_messages env sock username
                      (Recv (line ++ Text.newline ++ more) :: rest) st =
    listen_for_messages env sock username [Recv ""] st.
Proof.
  intros Hline Hne Hload Hbad. unfold listen_for_messages.
  rewrite (listen_loop_recv env username _ rest "" st
             (line_with_newline_not_empty line more)).
  rewrite (listen_loop_hang_up env username (Recv "") [] "" st
             (or_introl eq_refl)).
  change ("" ++ line ++ Text.newline ++ more)%string
    with (line ++ Text.newline ++ more)%string.
  rewrite (drain_step env username _ _ _ st (split1_line line more Hline)).
  unfold bind at 1.
  assert (Hraise : process_line env username line st = Raised st).
  { destruct Hbad as [Hv | (pkt & -> & Htype & Hc)].
    - now apply (non_dict_line_raises env username line v).
    - now apply (chat_without_content_raises env username line pkt). }
  now rewrite Hraise.
Qed.

Lemma raising_line_acts_as_disconnect_witness :
  listen_for_messages calm 1 "yosif"
      (Recv ("null" ++ Text.newline ++ chat_line "hi") :: [Recv Text.newline])
      two_clients =
    listen_for_messages calm 1 "yosif" [Recv ""] two_clients.
Proof.
  apply (raising_line_acts_as_disconnect calm 1 "yosif" "null"
           (chat_line "hi") JNull [Recv Text.newline] two_clients
           eq_refl eq_refl eq_refl).
  left. intros pkt E. discriminate E.
Defined.

(** X18.  A line that is blank, or that the JSON reader rejects, or that
    is a dict of another type, is skipped without a trace: the text that
    follows it is handled as if the line had not been there. *)
Theorem dropped_line_leaves_no_trace (env : environment) (sock : socket)
        (username line more : string) (rest : list recv_result)
        (st : state) :
  Text.split1 line = None ->
  Text.is_empty (Text.strip line) = true \/
  json_loads env line = JSONDecodeError \/
  (exists pkt, json_loads env line = Loaded (JObj pkt) /\
               str_eq (Dict.get "type" pkt) "message" = false) ->
  Text.is_empty more = false ->
  listen_for_messages env sock username
                      (Recv (line ++ Text.newline ++ more) :: rest) st =
    listen_for_messages env sock username (Recv more :: rest) st.
Proof.
  intros Hline Hdrop Hmore. unfold listen_for_messages.
  rewrite (listen_loop_recv env username _ rest "" st
             (line_with_newline_not_empty line more)).
  rewrite (listen_loop_recv env username more rest "" st Hmore).
  change ("" ++ line ++ Text.newline ++ more)%string
    with (line ++ Text.newline ++ more)%string.
  change ("" ++ more)%string with more.
  rewrite (drain_step env username _ _ _ st (split1_line line more Hline)).
  unfold bind at 1.
  assert (Hskip : process_line env username line st = Done tt st).
  { destruct Hdrop as [Hblank | [Hnone | (pkt & Hload & Htype)]].
    - now apply blank_line_dropped.
    - now apply undecodable_line_dropped.
    - now apply (other_type_dropped env username line pkt). }
  now rewrite Hskip.
Qed.

Lemma dropped_line_leaves_no_trace_witness :
  listen_for_messages calm 1 "yosif"
      (Recv ("{oops" ++ Text.newline ++ (chat_line "hi" ++ Text.newline))
         :: []) two_clients =
    listen_for_messages calm 1 "yosif"
      (Recv (chat_line "hi" ++ Text.newline) :: []) two_clients.
Proof.
  exact (dropped_line_leaves_no_trace calm 1 "yosif" "{oops"
           (chat_line "hi" ++ Text.newline) [] two_clients
           eq_refl (or_intror (or_introl eq_refl)) eq_refl).
Defined.

(** ** The broadcasts, once more *)

Section Broadcasts.

Variable env : environment.

(** Two presence broadcasts that agree on the registries shorter than [n]
    give the same fan-out loop. *)
Lemma loop_agree (c1 c2 : M unit) (n : nat) (p : json) :
  (forall st, List.length (active_clients st) < n -> c1 st = c2 st) ->
  (forall st, List.length (active_clients st) < n -> casts_at c1 st) ->
  forall snap st,
    List.length (active_clients st) < n \/
    (List.length (active_clients st) <= n /\
     forall e, In e snap -> In (fst e) (usernames_of (active_clients st))) ->
    for_each snap
      (fun entry => try_except (sendall env (snd entry) p)
                               (remove_client_with c1 (fst entry))) st =
    for_each snap
      (fun entry => try_except (sendall env (snd entry) p)
                               (remove_client_with c2 (fst entry))) st.
Proof.
  intros Hagree Hcast. induction snap as [|[u s] rest IH];
    intros [us reg lg] Hinv; [reflexivity|].
  cbn [for_each]. unfold bind at 1 2. cbn beta. cbn [fst snd].
  rewrite !deliver_step. cbn [log users active_clients].
  destruct (sendall_raises env lg s).
  - set (st1 := mkState us (without u reg)
                        ((lg ++ [Send s p false]) ++ [RemoveClient u])).
    assert (Hlt : List.length (active_clients st1) < n).
    { simpl. destruct Hinv as [Hlt | [Hle Hin]].
      - simpl in Hlt. pose proof (without_length u reg). lia.
      - simpl in Hle, Hin.
        pose proof (without_length_lt u reg (Hin (u, s) (or_introl eq_refl))).
        lia. }
    rewrite <- (Hagree st1 Hlt).
    destruct (Hcast st1 Hlt) as (evs1 & reg1 & Hrun1 & evs0 & _ & Htr1).
    rewrite Hrun1. apply IH. left. simpl in *.
    apply fan_trace_length in Htr1. lia.
  - apply IH. simpl in *. destruct Hinv as [Hlt | [Hle Hin]]; [now left|right].
    split; [assumption|]. intros e He. apply Hin. now right.
Qed.

(** The depth budget of the presence broadcast does not matter once it
    exceeds the length of the registry. *)
Lemma broadcast_user_list_rec_fuel (f : nat) :
  forall g st,
    List.length (active_clients st) < f ->
    List.length (active_clients st) < g ->
    broadcast_user_list_rec env f st = broadcast_user_list_rec env g st.
Proof.
  induction f as [|f IH]; intros g st Hf Hg; [lia|].
  destruct g as [|g]; [lia|].
  rewrite !broadcast_user_list_rec_S.
  apply (loop_agree _ _ (Nat.min f g)).
  - intros st' Hlt. apply IH; lia.
  - intros st' Hlt. apply broadcast_user_list_rec_casts. lia.
  - right. cbn [active_clients]. split; [lia|].
    intros e He. now apply in_map.
Qed.

(** The presence broadcast satisfies the equation that the source writes;
    the depth budget used to define it is not visible. *)
Lemma broadcast_user_list_equation (st : state) :
  broadcast_user_list env st =
    (let usernames := usernames_of (active_clients st) in
     emit (UserListCast usernames) ;;
     for_each (active_clients st)
       (fun entry =>
          try_except (sendall env (snd entry) (user_list_record usernames))
                     (remove_client env (fst entry)))) st.
Proof.
  unfold broadcast_user_list at 1. rewrite broadcast_user_list_rec_S.
  cbv zeta. unfold bind at 1. unfold emit at 1. unfold remove_client.
  apply (loop_agree _ _ (List.length (active_clients st))).
  - intros st' Hlt. unfold broadcast_user_list.
    apply broadcast_user_list_rec_fuel; lia.
  - intros st' Hlt. now apply broadcast_user_list_rec_casts.
  - right. cbn [active_clients]. split; [lia|].
    intros e He. now apply in_map.
Qed.

(** X20.  On a network where no write raises, a chat broadcast is one
    successful write of the record per entry of the registry, in registry
    order, and nothing else: no removal, no presence broadcast, the
    registry and the accounts as before. *)
Theorem calm_broadcast_is_one_write_each (message : json) (st : state) :
  never_raises env ->
  broadcast_message env message st =
    Done tt (mkState (users st) (active_clients st)
               (log st ++ map (fun e => Send (snd e) message true)
                              (active_clients st))).
Proof.
  intros Hcalm. unfold broadcast_message. unfold bind at 1. unfold get_state.
  exact (loop_calm env _ message Hcalm (active_clients st) st).
Qed.

End Broadcasts.

Lemma calm_broadcast_is_one_write_each_witness :
  broadcast_message calm (message_record "ali" (JStr "hi") "09:05")
                    four_clients =
    Done tt
      (mkState (users four_clients) (active_clients four_clients)
         (log four_clients ++
            map (fun e => Send (snd e)
                            (message_record "ali" (JStr "hi") "09:05") true)
                (active_clients four_clients))).
Proof.
  exact (calm_broadcast_is_one_write_each calm
           (message_record "ali" (JStr "hi") "09:05") four_clients
           (fun _ _ => eq_refl)).
Defined.



(** X21.  Removal during a chat broadcast goes by name.  A username is
    removed only after a write to a socket it keyed has raised; once it is
    removed no entry under that name is left, a second session under the
    same name with a working socket included; every other entry stays, in
    order; and the accounts are untouched. *)
Theorem broadcast_removes_by_name (env : environment) (message : json)
        (st : state) :
  exists st',
    broadcast_message env message st = Done tt st' /\
    users st' = users st /\
    active_clients st' =
      purge (removed (events_since st st')) (active_clients st) /\
    forall u,
      In u (removed (events_since st st')) ->
      (exists s q, In (u, s) (active_clients st) /\
                   In (Send s q false) (events_since st st')) /\
      (forall s, ~ In (u, s) (active_clients st')).
Proof.
  destruct (broadcast_message_fans env message st)
    as (evs & reg' & Hrun & Htr).
  eexists. split; [exact Hrun|].
  rewrite events_since_app. cbn [users active_clients].
  split; [reflexivity|].
  pose proof (fan_trace_purge _ _ _ _ _ Htr) as Hpurge.
  split; [exact Hpurge|]. intros u Hu. split.
  - exact (fan_trace_removed _ _ _ _ _ Htr (active_clients st)
             (incl_refl _) (incl_refl _) u Hu).
  - intros s. rewrite Hpurge. apply purge_no_key. now apply mem_In.
Qed.

(** Two sessions under the name ["yosif"]; the socket of the second one is
    down.  One chat broadcast deregisters both. *)
Example same_name_sessions_fall_together :
  let hello := message_record "ali" (JStr "hi") "12:00" in
  exists st',
    broadcast_message socket3_down hello four_clients = Done tt st' /\
    active_clients st' = [("mohamed", 2); ("ali", 4)] /\
    In (Send 1 hello true) (log st').
Proof.
  eexists. split; [cbv; reflexivity|]. split; [reflexivity|].
  simpl. now left.
Qed.

(** ** Sequences of operations *)

Lemma handle_auth_accounts_unique (env : environment) (sock : socket)
      (first_read : recv_result) (st st' : state) :
  usernames_unique (users st) ->
  final_state (handle_auth env sock first_read st) = Some st' ->
  usernames_unique (users st').
Proof.
  intros Hnd.
  unfold handle_auth, Database.register_user, Database.validate_user, sendall.
  run.
  repeat break_match_eq; simpl; intros H; try discriminate;
    injection H as <-; simpl; auto using usernames_unique_add.
Qed.

Lemma client_handler_accounts (env : environment) (sock : socket)
      (first_read : recv_result) (st st' : state) :
  final_state (client_handler env sock first_read st) = Some st' ->
  exists st1,
    final_state (handle_auth env sock first_read st) = Some st1 /\
    users st' = users st1.
Proof.
  unfold client_handler. unfold bind at 1.
  destruct (handle_auth env sock first_read st) as [[u|] st1 | st1 |];
    simpl; try discriminate.
  - destruct (Text.is_empty u).
    + run. intros H. injection H as <-. now exists st1.
    + run.
      destruct (broadcast_user_list_casts env
                  (mkState (users st1) (active_clients st1 ++ [(u, sock)])
                           (log st1)))
        as (evs & reg' & Hrun & _).
      cbn [users active_clients log] in *. rewrite Hrun. simpl.
      intros H. injection H as <-. now exists st1.
  - run. intros H. injection H as <-. now exists st1.
  - intros H. injection H as <-. now exists st1.
Qed.

Lemma perform_keeps_invariants (env : environment) (op : operation)
      (st st' : state) :
  usernames_unique (users st) /\ registry_sound st ->
  perform env op st = Some st' ->
  usernames_unique (users st') /\ registry_sound st'.
Proof.
  intros [Hnd Hsound]. destruct op as [sock r | sock u reads]; simpl; intros H.
  - split.
    + destruct (client_handler_accounts env sock r st st' H)
        as (st1 & Hauth & ->).
      exact (handle_auth_accounts_unique env sock r st st1 Hnd Hauth).
    + exact (client_handler_sound env sock r st st' Hsound H).
  - destruct (listen_loop_relays env u reads "" st)
      as (r' & evs & reg' & Hrun' & (Hpurge & _ & _) & _).
    unfold listen_for_messages in H. rewrite Hrun' in H. simpl in H.
    injection H as <-. cbn [users]. split; [assumption|].
    intros v s Hin. cbn [users active_clients] in *.
    rewrite Hpurge in Hin. apply purge_incl in Hin. exact (Hsound v s Hin).
Qed.

Lemma perform_accounts_grow (env : environment) (op : operation)
      (st st' : state) :
  perform env op st = Some st' ->
  forall u, Database.has_username u (users st) = true ->
            Database.has_username u (users st') = true.
Proof.
  destruct op as [sock r | sock name reads]; simpl; intros H u Hu.
  - destruct (client_handler_accounts env sock r st st' H)
      as (st1 & Hauth & ->).
    destruct (handle_auth_accounts_grow env sock r st st1 Hauth) as [more ->].
    now rewrite has_username_app, Hu.
  - destruct (listen_loop_relays env name reads "" st)
      as (r' & evs & reg' & Hrun' & _).
    unfold listen_for_messages in H. rewrite Hrun' in H. simpl in H.
    injection H as <-. exact Hu.
Qed.

Lemma init_rows_unique (rows : list (string * string)) :
  usernames_unique rows -> usernames_unique (Database.init rows).
Proof.
  intros H.
  unfold Database.init, Database.add_default_users, Database.default_users.
  cbn [fold_left].
  apply (insert_or_ignore_spec ("mohamed", "1010")).
  now apply (insert_or_ignore_spec ("yosif", "1010")).
Qed.

Lemma perform_runs (env : environment) (op : operation) (st : state) :
  plain_operation env op -> exists st', perform env op st = Some st'.
Proof.
  destruct op as [sock r | sock name reads]; simpl; intros Hplain.
  - unfold client_handler. unfold bind at 1.
    destruct (plain_handshake_runs env sock r st Hplain) as [st1 Hrun].
    destruct (handle_auth env sock r st) as [[u|] st2 | st2 |];
      try discriminate.
    + destruct (Text.is_empty u); [eexists; reflexivity|]. run.
      destruct (broadcast_user_list_casts env
                  (mkState (users st2) (active_clients st2 ++ [(u, sock)])
                           (log st2)))
        as (evs & reg' & Hcast & _).
      cbn [users active_clients log] in Hcast. rewrite Hcast.
      eexists. reflexivity.
    + eexists. reflexivity.
    + eexists. reflexivity.
  - destruct (listen_loop_relays env name reads "" st)
      as (r' & evs & reg' & Hrun & _).
    unfold listen_for_messages. rewrite Hrun. eexists. reflexivity.
Qed.

(** X10.  On a plain handshake (username and password text, [null] or
    missing) [client_handler] returns or raises, and either way keeps the
    invariants of the server state: the usernames of the accounts stay
    distinct, no account is lost, and every entry of the registry still
    runs under a non-empty username that has an account. *)
Theorem client_handler_keeps_invariants (env : environment)
        (sock : socket) (first_read : recv_result) (st : state) :
  plain_handshake env first_read ->
  usernames_unique (users st) ->
  registry_sound st ->
  exists st',
    final_state (client_handler env sock first_read st) = Some st' /\
    usernames_unique (users st') /\
    registry_sound st' /\
    (forall u, Database.has_username u (users st) = true ->
               Database.has_username u (users st') = true).
Proof.
  intros Hplain Hnd Hsound.
  destruct (perform_runs env (Handle sock first_read) st Hplain) as [st' H].
  exists st'. split; [exact H|].
  destruct (perform_keeps_invariants env (Handle sock first_read) st st'
              (conj Hnd Hsound) H) as [Hnd' Hsound'].
  split; [exact Hnd'|]. split; [exact Hsound'|].
  exact (perform_accounts_grow env (Handle sock first_read) st st' H).
Qed.

Lemma client_handler_keeps_invariants_witness :
  plain_handshake calm (Recv (credentials_line "login" "mohamed" "1010")) /\
  usernames_unique (users one_client) /\
  registry_sound one_client /\
  exists st',
    final_state (client_handler calm 3
                   (Recv (credentials_line "login" "mohamed" "1010"))
                   one_client) = Some st' /\
    usernames_unique (users st') /\
    registry_sound st' /\
    (forall u, Database.has_username u (users one_client) = true ->
               Database.has_username u (users st') = true).
Proof.
  assert (Hplain : plain_handshake calm
                     (Recv (credentials_line "login" "mohamed" "1010"))).
  { intros raw creds Hraw. injection Hraw as <-.
    intros Hload. vm_compute in Hload. injection Hload as <-.
    split; reflexivity. }
  assert (Hnd : usernames_unique (users one_client)).
  { exact (init_rows_unique [] (NoDup_nil _)). }
  assert (H : registry_sound one_client).
  { intros u s [E | []]. injection E as <- <-. split; reflexivity. }
  split; [exact Hplain|]. split; [exact Hnd|]. split; [exact H|].
  exact (client_handler_keeps_invariants calm 3
           (Recv (credentials_line "login" "mohamed" "1010")) one_client
           Hplain Hnd H).
Defined.

(** X22.  Start the server on a file whose usernames are distinct and run
    any sequence of connection handlers and session readers, each to its
    end, the handshakes being plain (username and password text, [null]
    or missing).  The run goes through, and in the state reached the
    usernames of the accounts are still distinct, every account of the
    file and both default usernames still exist, and every entry of the
    registry runs under a non-empty username that has an account. *)
Theorem served_states_are_sound (env : environment) (ops : list operation)
        (rows : list (string * string)) :
  Forall (plain_operation env) ops ->
  usernames_unique rows ->
  exists st',
    serve env ops (initial_state rows) = Some st' /\
    usernames_unique (users st') /\
    registry_sound st' /\
    (forall u, Database.has_username u (Database.init rows) = true ->
               Database.has_username u (users st') = true).
Proof.
  intros Hplain Hrows.
  assert (Hinit : usernames_unique (users (initial_state rows)) /\
                  registry_sound (initial_state rows)).
  { split.
    - now apply (init_rows_unique rows).
    - intros u s []. }
  assert (Hkeep : forall u, Database.has_username u (Database.init rows) = true ->
                  Database.has_username u (users (initial_state rows)) = true)
    by auto.
  revert Hinit Hkeep. generalize (initial_state rows) as st.
  induction Hplain as [|op ops Hop _ IH]; intros st Hinv Hkeep; simpl.
  - exists st. destruct Hinv. auto.
  - destruct (perform_runs env op st Hop) as [st1 Hrun]. rewrite Hrun.
    apply IH.
    + exact (perform_keeps_invariants env op st st1 Hinv Hrun).
    + intros u Hu. specialize (Hkeep u Hu).
      apply (perform_accounts_grow env op st st1 Hrun). exact Hkeep.
Qed.

Lemma sample_run_plain : Forall (plain_operation calm) sample_run.
Proof.
  unfold sample_run.
  repeat match goal with
         | |- Forall _ (_ :: _) => apply Forall_cons
         | |- Forall _ [] => apply Forall_nil
         | |- plain_operation _ (Listen _ _ _) => exact I
         | |- plain_operation _ (Handle _ _) =>
             simpl; intros raw creds Hraw; injection Hraw as <-;
             intros Hload; vm_compute in Hload; injection Hload as <-;
             split; reflexivity
         end.
Defined.

Lemma served_states_are_sound_witness :
  Forall (plain_operation calm) sample_run /\
  usernames_unique [] /\
  exists st',
    serve calm sample_run (initial_state []) = Some st' /\
    usernames_unique (users st') /\
    registry_sound st' /\
    (forall u, Database.has_username u (Database.init []) = true ->
               Database.has_username u (users st') = true).
Proof.
  split; [exact sample_run_plain|]. split; [exact (NoDup_nil _)|].
  exact (served_states_are_sound calm sample_run [] sample_run_plain
           (NoDup_nil _)).
Defined.
